(** * Cache and scrape scheduling of go-common: a shallow embedding

    The development follows three source files:
    - [azuresdk/armclient/client.go] and [client.resourcegroups.go]: the
      discovery cache of [ArmClient] ([cacheData],
      [ListCachedResourceGroups], [ListResourceGroups]);
    - [prometheus/collector/cache.go]: the snapshot cache of [Collector]
      ([SetCache], [cacheRead], [cacheStore], [collectionSaveCache],
      [collectionRestoreCache]).

    Go values are modelled as the code has them: [int64] durations are
    integers with the wrap-around written out, pointers that may be nil are
    options, maps are finite maps, and every call that leaves the process
    (clock, file system, blob storage, Azure API) takes its outcome from an
    explicit argument. *)

From Stdlib Require Import ZArith String Ascii List Bool Lia.
From stdpp Require Import base option gmap strings list fin_maps.
From Ceres Require Import Ceres.

Local Open Scope string_scope.
Local Open Scope Z_scope.

(** ** Go's [time] package *)

Module time.

(** A wall-clock instant, in nanoseconds since the Unix epoch. *)
Definition Time := Z.

(** [time.Duration] is an [int64] count of nanoseconds. *)
Definition Duration := Z.

Definition minDuration : Duration := - 2 ^ 63.
Definition maxDuration : Duration := 2 ^ 63 - 1.

(** Two's complement wrap-around of [int64] arithmetic. *)
Definition wrap64 (z : Z) : Z := (z + 2 ^ 63) mod 2 ^ 64 - 2 ^ 63.

Definition Nanosecond : Duration := 1.
Definition Second : Duration := 1000000000.
Definition Minute : Duration := 60 * Second.

(** [d1 + d2] on durations. *)
Definition dadd (d1 d2 : Duration) : Duration := wrap64 (d1 + d2).

(** [time.Duration(n) * d]. *)
Definition dmul (n : Z) (d : Duration) : Duration := wrap64 (n * d).

(** [t.Add(d)]. *)
Definition Add (t : Time) (d : Duration) : Time := t + d.

(** [t.After(u)]. *)
Definition After (t u : Time) : bool := u <? t.

(** [t.Sub(u)]: the difference, saturated to the range of [Duration]. *)
Definition Sub (t u : Time) : Duration :=
  if maxDuration <? t - u then maxDuration
  else if t - u <? minDuration then minDuration
  else t - u.

(** [time.Until(t)], with [now] the clock reading it takes. *)
Definition Until (t now : Time) : Duration := Sub t now.

(** [t.UnixNano()]. *)
Definition UnixNano (t : Time) : Z := wrap64 t.

End time.

(** ** Errors and control *)

(** Error numbers of the system calls the code makes. *)
Inductive errno := ENOENT | EEXIST | EACCES | EIO | ENOSPC | ENOTDIR | EISDIR.

(** Go [error] values that reach the code. *)
Inductive error :=
| PathError (op path : string) (e : errno)
| LinkError (op old new : string) (e : errno)
| BlobNotFound
| AuthenticationFailed
| TransportError (msg : string)
| ContextCanceled
| ApiError (msg : string)
| JsonError (msg : string)
| UrlError (msg : string)
| ConfigError (msg : string)
| RuntimeError (msg : string).

#[global] Instance errno_eq_dec : EqDecision errno.
Proof. solve_decision. Defined.

#[global] Instance error_eq_dec : EqDecision error.
Proof. solve_decision. Defined.

(** [os.IsNotExist(err)]; [err] is [None] for a nil error. *)
Definition IsNotExist (err : option error) : bool :=
  match err with
  | Some (PathError _ _ ENOENT) | Some (LinkError _ _ _ ENOENT) => true
  | _ => false
  end.

(** A call either returns or panics with a value. *)
Inductive outcome (A : Type) :=
| Returned (a : A)
| Panicked (e : error).
Arguments Returned {A} a.
Arguments Panicked {A} e.

(** ** The discovery cache of [ArmClient] *)

Module armclient.
Import time.

(** [armresources.ResourceGroup], reduced to the fields the code reads. *)
Record ResourceGroup := { rgName : option string; rgID : string }.

(** The [interface{}] values kept in the cache: the dynamic type decides
    the type assertions. *)
Inductive any :=
| anyNil
| anyResourceGroups (m : option (gmap string ResourceGroup))
| anyOther (payload : string).

(** go-cache: an item and its expiration in Unix nanoseconds; an
    expiration of [0] or less never lapses. *)
Record Item := { Object : any; Expiration : Z }.

Record Cache := { defaultExpiration : Duration; items : gmap string Item }.

Definition DefaultExpiration : Duration := 0.

(** [cache.New(defaultExpiration, cleanupInterval)]. *)
Definition cache_New (d : Duration) : Cache :=
  {| defaultExpiration := d; items := ∅ |}.

(** [c.Get(k)] at clock reading [now]. *)
Definition Get (c : Cache) (now : Time) (k : string) : any * bool :=
  match items c !! k with
  | None => (anyNil, false)
  | Some item =>
      if (0 <? Expiration item) && (Expiration item <? UnixNano now)
      then (anyNil, false)
      else (Object item, true)
  end.

(** [c.Set(k, x, d)] at clock reading [now]. *)
Definition Set_ (c : Cache) (now : Time) (k : string) (x : any) (d : Duration) : Cache :=
  let d := if d =? DefaultExpiration then defaultExpiration c else d in
  let e := if 0 <? d then UnixNano (Add now d) else 0 in
  {| defaultExpiration := defaultExpiration c;
     items := <[k := {| Object := x; Expiration := e |}]> (items c) |}.

(** [c.SetDefault(k, x)]. *)
Definition SetDefault (c : Cache) (now : Time) (k : string) (x : any) : Cache :=
  Set_ c now k x DefaultExpiration.

Record ArmClient := { cache : Cache; cacheTtl : Duration }.

(** [NewArmClient]: the cache fields it sets. *)
Definition NewArmClient : ArmClient :=
  {| cache := cache_New (dmul 60 Minute); cacheTtl := dmul 30 Minute |}.

Section CacheData.
(** What a callback may change outside the client. *)
Context {World : Type}.

(** [azureClient.cacheData(identifier, callback)]. [now] is the clock
    reading of [Get], [now'] that of [SetDefault]. *)
Definition cacheData (azureClient : ArmClient) (now now' : Time)
    (identifier : string)
    (callback : World → (any * option error) * World) (w : World)
    : (any * option error) * ArmClient * World :=
  match Get (cache azureClient) now identifier with
  | (v, true) => ((v, None), azureClient, w)
  | (_, false) =>
      let '((result, err), w') := callback w in
      let azureClient' :=
        match err with
        | None =>
            {| cache := SetDefault (cache azureClient) now' identifier result;
               cacheTtl := cacheTtl azureClient |}
        | Some _ => azureClient
        end in
      ((result, err), azureClient', w')
  end.
End CacheData.

(** One page of the resource group pager: [NextPage] fails, or returns a
    page whose [Value] may be nil. *)
Definition page := (error + option (list ResourceGroup))%type.

(** The Azure API as [ListResourceGroups] meets it, once [GetCred] has
    given the credential. *)
Record Api := {
  newClientError : option error;   (* of [NewResourceGroupsClient] *)
  pages : list page                (* what the pager yields, in order *)
}.

Section ResourceGroups.
(** [to.StringLower] of go-common's [utils/to]. *)
Variable StringLower : option string → string.

(** The loop [for pager.More()] of [ListResourceGroups]. *)
Fixpoint listPages (ps : list page) (list : gmap string ResourceGroup)
    : option (gmap string ResourceGroup) * option error :=
  match ps with
  | [] => (Some list, None)
  | inl err :: _ => (None, Some err)
  | inr None :: ps' => listPages ps' list
  | inr (Some value) :: ps' =>
      listPages ps'
        (fold_left (λ l resourceGroup,
                      <[StringLower (rgName resourceGroup) := resourceGroup]> l)
                   value list)
  end.

(** [azureClient.ListResourceGroups(ctx, subscriptionID)], from the return
    of [GetCred] on; the call with [GetCred] and its panic is
    [armclient_cred.ListResourceGroups] below. *)
Definition ListResourceGroups (api : Api)
    : option (gmap string ResourceGroup) * option error :=
  match newClientError api with
  | Some err => (None, Some err)
  | None => listPages (pages api) ∅
  end.

(** [azureClient.ListCachedResourceGroups(ctx, subscriptionID)]. *)
Definition ListCachedResourceGroups (azureClient : ArmClient)
    (now now' : Time) (subscriptionID : string) (api : Api)
    : (option (gmap string ResourceGroup) * option error) * ArmClient :=
  let cacheKey := "resourcegroups:" +:+ subscriptionID in
  let refresh :=
    match ListResourceGroups api with
    | (list, Some err) => ((list, Some err), azureClient)
    | (list, None) =>
        ((list, None),
         {| cache := Set_ (cache azureClient) now' cacheKey
                          (anyResourceGroups list) (cacheTtl azureClient);
            cacheTtl := cacheTtl azureClient |})
    end in
  match Get (cache azureClient) now cacheKey with
  | (anyResourceGroups cacheData, true) => ((cacheData, None), azureClient)
  | _ => refresh
  end.
End ResourceGroups.

End armclient.

(** Go's [path/filepath] on a Unix system, and the functions of [strings]
    the code calls. *)
Module filepath.

Definition Separator : ascii := "/"%char.

(** [strings.Split(s, string(c))]. *)
Fixpoint split_on (c : ascii) (s : string) : list string :=
  match s with
  | EmptyString => [EmptyString]
  | String a s' =>
      if Ascii.eqb a c then EmptyString :: split_on c s'
      else match split_on c s' with
           | [] => [String a EmptyString]
           | x :: xs => String a x :: xs
           end
  end.

(** [strings.Join(l, "/")]. *)
Fixpoint join (l : list string) : string :=
  match l with
  | [] => EmptyString
  | [x] => x
  | x :: xs => x +:+ String Separator (join xs)
  end.

(** No separator occurs in [s]. *)
Fixpoint sepfree (s : string) : bool :=
  match s with
  | EmptyString => true
  | String a s' => negb (Ascii.eqb a Separator) && sepfree s'
  end.

Definition is_dot (s : string) : bool := String.eqb s ".".
Definition is_dotdot (s : string) : bool := String.eqb s "..".

(** The elements [Clean] keeps, last first in [stack]: empty and [.]
    elements go, [..] removes the element before it, is dropped at the
    root and is kept at the start of a relative path. *)
Fixpoint clean_elems (rooted : bool) (stack : list string) (elems : list string)
    : list string :=
  match elems with
  | [] => rev stack
  | e :: rest =>
      if String.eqb e "" || is_dot e then clean_elems rooted stack rest
      else if is_dotdot e then
        match stack with
        | top :: stack' =>
            if is_dotdot top then clean_elems rooted (e :: stack) rest
            else clean_elems rooted stack' rest
        | [] =>
            if rooted then clean_elems rooted [] rest
            else clean_elems rooted [e] rest
        end
      else clean_elems rooted (e :: stack) rest
  end.

(** An element that [Clean] keeps where it stands. *)
Definition proper (e : string) : bool :=
  negb (String.eqb e "" || is_dot e) && negb (is_dotdot e).

Definition rooted (path : string) : bool :=
  match path with
  | String a _ => Ascii.eqb a Separator
  | EmptyString => false
  end.

(** [filepath.Clean(path)]. *)
Definition Clean (path : string) : string :=
  let out := join (clean_elems (rooted path) [] (split_on Separator path)) in
  if rooted path then String Separator out
  else if String.eqb out "" then "." else out.

(** The last non-empty element of a split path. *)
Definition last_elem (l : list string) : option string :=
  last (filter (λ e, e ≠ EmptyString) l).

(** [filepath.Base(path)]. *)
Definition Base (path : string) : string :=
  if String.eqb path "" then "."
  else match last_elem (split_on Separator path) with
       | Some e => e
       | None => String Separator EmptyString
       end.

(** [path[:i+1]] for [i] the index of the last separator: everything up
    to and with the last separator. *)
Definition dir_prefix (path : string) : string :=
  match rev (split_on Separator path) with
  | [] | [_] => EmptyString
  | _ :: front => join (rev front) +:+ String Separator EmptyString
  end.

(** [filepath.Dir(path)]. *)
Definition Dir (path : string) : string := Clean (dir_prefix path).

(** [filepath.Join(elem...)]. *)
Fixpoint Join (elem : list string) : string :=
  match elem with
  | [] => EmptyString
  | e :: rest =>
      if String.eqb e "" then Join rest else Clean (join elem)
  end.

End filepath.

(** ** The file system and blob storage the collector writes to *)

(** A Go [[]byte]. *)
Abbreviation bytes := (list Byte.byte).

Module os.

(** Files by path, and the directories that exist. Distinct path strings
    name distinct files: there are no links in this model. *)
Record FS := { files : gmap string bytes; dirs : gset string }.

Definition exists_ (fs : FS) (path : string) : bool :=
  bool_decide (is_Some (files fs !! path)) || bool_decide (path ∈ dirs fs).

(** How [os.ReadFile] may fail: at the open, or at a read after [n]
    bytes. *)
Inductive read_fault := OpenFails (e : errno) | ReadFails (e : errno) (n : nat).

(** How [os.WriteFile] may fail: at the open, or at the write after [n]
    bytes reached the truncated file. *)
Inductive write_fault := CreateFails (e : errno) | WriteFails (e : errno) (n : nat).

(** [os.Stat(path)]: the error only. *)
Definition Stat (fs : FS) (path : string) (fault : option errno) : option error :=
  match fault with
  | Some e => Some (PathError "stat" path e)
  | None => if exists_ fs path then None else Some (PathError "stat" path ENOENT)
  end.

(** [os.ReadFile(path)]: a nil slice is [None]. *)
Definition ReadFile (fs : FS) (path : string) (fault : option read_fault)
    : option bytes * option error :=
  match files fs !! path, fault with
  | _, Some (OpenFails e) => (None, Some (PathError "open" path e))
  | None, _ => (None, Some (PathError "open" path ENOENT))
  | Some content, Some (ReadFails e n) =>
      (Some (take n content), Some (PathError "read" path e))
  | Some content, None => (Some content, None)
  end.

(** [os.Mkdir(path, perm)]. *)
Definition Mkdir (fs : FS) (path : string) (fault : option errno)
    : FS * option error :=
  match fault with
  | Some e => (fs, Some (PathError "mkdir" path e))
  | None =>
      if exists_ fs path then (fs, Some (PathError "mkdir" path EEXIST))
      else ({| files := files fs; dirs := {[path]} ∪ dirs fs |}, None)
  end.

(** [os.WriteFile(path, data, perm)]: the file is created or truncated,
    then written. *)
Definition WriteFile (fs : FS) (path : string) (data : bytes)
    (fault : option write_fault) : FS * option error :=
  match fault with
  | Some (CreateFails e) => (fs, Some (PathError "open" path e))
  | Some (WriteFails e n) =>
      ({| files := <[path := take n data]> (files fs); dirs := dirs fs |},
       Some (PathError "write" path e))
  | None =>
      if bool_decide (path ∈ dirs fs) then (fs, Some (PathError "open" path EISDIR))
      else ({| files := <[path := data]> (files fs); dirs := dirs fs |}, None)
  end.

(** [os.Rename(oldpath, newpath)] of a file: the new path gets the
    content in one step, the old path goes. *)
Definition Rename (fs : FS) (oldpath newpath : string) (fault : option errno)
    : FS * option error :=
  match fault with
  | Some e => (fs, Some (LinkError "rename" oldpath newpath e))
  | None =>
      match files fs !! oldpath with
      | None => (fs, Some (LinkError "rename" oldpath newpath ENOENT))
      | Some content =>
          if bool_decide (newpath ∈ dirs fs)
          then (fs, Some (LinkError "rename" oldpath newpath EISDIR))
          else ({| files := <[newpath := content]> (delete oldpath (files fs));
                   dirs := dirs fs |}, None)
      end
  end.

End os.

Module azblob.

(** Blobs by container and name. *)
Definition Storage := gmap (string * string) bytes.

(** [*azblob.Client]: the service URL it was made for. *)
Record Client := { serviceURL : string }.

(** [client.DownloadStream(ctx, container, blob, nil)]: an error, or the
    body to read. *)
Definition DownloadStream (st : Storage) (container blob : string)
    (fault : option error) : error + bytes :=
  match fault with
  | Some err => inl err
  | None =>
      match st !! (container, blob) with
      | None => inl BlobNotFound
      | Some content => inr content
      end
  end.

(** [io.ReadAll(response.Body)]. *)
Definition ReadAll (body : bytes) (fault : option error) : error + bytes :=
  match fault with
  | Some err => inl err
  | None => inr body
  end.

(** [client.UploadBuffer(ctx, container, blob, content, nil)]. *)
Definition UploadBuffer (st : Storage) (container blob : string)
    (content : bytes) (fault : option error) : Storage * option error :=
  match fault with
  | Some err => (st, Some err)
  | None => (<[(container, blob) := content]> st, None)
  end.

End azblob.

(** ** Go's [strings] and [net/url] *)

Module strings.

(** [strings.Cut(s, string(sep))]: the text before the first [sep], and
    the text after it when there is one. *)
Fixpoint Cut (sep : ascii) (s : string) : string * option string :=
  match s with
  | EmptyString => (EmptyString, None)
  | String a s' =>
      if Ascii.eqb a sep then (EmptyString, Some s')
      else let '(before, after) := Cut sep s' in (String a before, after)
  end.

(** [strings.SplitN(s, string(sep), n)] for [n >= 0]. *)
Fixpoint SplitN (s : string) (sep : ascii) (n : nat) : list string :=
  match n with
  | O => []
  | S O => [s]
  | S n' =>
      match Cut sep s with
      | (before, Some after) => before :: SplitN after sep n'
      | (_, None) => [s]
      end
  end.

Definition HasPrefix (s prefix : string) : bool := String.prefix prefix s.

Fixpoint drop (n : nat) (s : string) : string :=
  match n, s with
  | S n', String _ s' => drop n' s'
  | _, _ => s
  end.

Definition TrimPrefix (s prefix : string) : string :=
  if HasPrefix s prefix then drop (String.length prefix) s else s.

End strings.

Module url.

(** [url.URL]: the fields the collector reads. *)
Record URL := { Scheme : string; Host : string; Path : string }.

Definition is_digit (a : ascii) : bool :=
  let n := nat_of_ascii a in (48 <=? n)%nat && (n <=? 57)%nat.

Fixpoint all_digits (s : string) : bool :=
  match s with
  | EmptyString => true
  | String a s' => is_digit a && all_digits s'
  end.

(** The host without a valid port: the text before the last colon when
    only digits follow it. *)
Fixpoint strip_port (host : string) : string :=
  match host with
  | EmptyString => EmptyString
  | String a host' =>
      if Ascii.eqb a ":" && all_digits host' then EmptyString
      else String a (strip_port host')
  end.

Definition unbracket (host : string) : string :=
  match host with
  | String "[" inner =>
      match rev (list_ascii_of_string inner) with
      | "]"%char :: front => string_of_list_ascii (rev front)
      | _ => host
      end
  | _ => host
  end.

(** [u.Hostname()]. *)
Definition Hostname (u : URL) : string := unbracket (strip_port (Host u)).

(** [url.Parse] on a URL of the form [scheme://authority/path?query#fragment]
    without user information or percent escapes, where it cannot fail:
    the path is what follows the authority, from its first slash on. *)
Definition Parse (rawURL : string) : error + URL :=
  let '(rest, _) := strings.Cut "#" rawURL in
  match strings.Cut ":" rest with
  | (scheme, Some rest) =>
      let '(rest, _) := strings.Cut "?" rest in
      if strings.HasPrefix rest "//" then
        let authority := strings.drop 2 rest in
        match strings.Cut "/" authority with
        | (host, Some path) =>
            inr {| Scheme := scheme; Host := host; Path := String "/" path |}
        | (host, None) =>
            inr {| Scheme := scheme; Host := host; Path := "" |}
        end
      else inr {| Scheme := scheme; Host := ""; Path := rest |}
  | (_, None) =>
      let '(rest, _) := strings.Cut "?" rest in
      inr {| Scheme := ""; Host := ""; Path := rest |}
  end.

End url.

(** ** The snapshot cache of [Collector] *)

Module collector.
Import time.

Inductive Level := InfoLevel | WarnLevel | ErrorLevel | PanicLevel.

(** The log lines of [cache.go], by their format string. *)
Inductive message :=
| msgPanic (err : error)
| msgRestoring (raw : string)
| msgTagMismatch
| msgRestored (raw : string) (expiry : Time)
| msgExpired
| msgDecode (err : error)
| msgSaved (raw : string) (expiry : Time)
| msgSerialize (err : error).

(** What lies outside the process. *)
Record World := {
  fs : os.FS;
  storage : azblob.Storage;
  log : list (Level * message)
}.

Definition logf (lvl : Level) (m : message) (w : World) : World :=
  {| fs := fs w; storage := storage w; log := log w ++ [(lvl, m)] |}.

Definition set_fs (w : World) (fs' : os.FS) : World :=
  {| fs := fs'; storage := storage w; log := log w |}.

Definition set_storage (w : World) (st : azblob.Storage) : World :=
  {| fs := fs w; storage := st; log := log w |}.

(** [c.logger.Panic(err)]: the entry is logged, then the call panics. *)
Definition logPanic {A} (err : error) (w : World) : outcome A * World :=
  (Panicked err, logf PanicLevel (msgPanic err) w).

(** The outcomes of the calls one run of [cacheRead] or [cacheStore]
    makes; [None] lets the call go through. *)
Record Faults := {
  stat_fault : option errno;
  readfile_fault : option os.read_fault;
  mkdir_fault : option errno;
  writefile_fault : option os.write_fault;
  rename_fault : option errno;
  download_fault : option error;
  readall_fault : option error;
  upload_fault : option error
}.

Definition no_faults : Faults :=
  {| stat_fault := None; readfile_fault := None; mkdir_fault := None;
     writefile_fault := None; rename_fault := None; download_fault := None;
     readall_fault := None; upload_fault := None |}.

(** The outcomes of the constructors [SetCache] calls. *)
Record Environment := {
  NewArmClientFromEnvironment : outcome (option error);
  GetCred : option error;           (* [GetCred] panics with it *)
  NewClient : option error          (* of [azblob.NewClient] *)
}.

Definition cacheProtocolFile : string := "file".
Definition cacheProtocolAzBlob : string := "azblob".

Record cacheSpecDef := {
  protocol : string;
  url : option url.URL;
  tag : option string;
  raw : string;
  spec : gmap string string;
  client : option azblob.Client
}.

(** [m[k]] on a [map[string]string]: the empty string for a missing key. *)
Definition index (m : gmap string string) (k : string) : string :=
  default "" (m !! k).

Section Collector.

(** One sample of a metric. *)
Variable MetricRow : Type.

(** What a [MetricList] holds besides its rows. *)
Variable MetricState : Type.

Record MetricList := { List : option (list MetricRow); state : MetricState }.

Record CollectorData := {
  Metrics : gmap string MetricList;
  Created : option Time;
  Expiry : option Time;
  Tag : option string
}.

Record Collector := {
  cache : option cacheSpecDef;
  data : CollectorData;
  scrapeTime : option Duration;
  sleepTime : option Duration;
  lastScrapeTime : option Time;
  collectionStartTime : Time
}.

Definition set_cache (c : Collector) (spec : option cacheSpecDef) : Collector :=
  {| cache := spec; data := data c; scrapeTime := scrapeTime c;
     sleepTime := sleepTime c; lastScrapeTime := lastScrapeTime c;
     collectionStartTime := collectionStartTime c |}.

Definition set_data (c : Collector) (d : CollectorData) : Collector :=
  {| cache := cache c; data := d; scrapeTime := scrapeTime c;
     sleepTime := sleepTime c; lastScrapeTime := lastScrapeTime c;
     collectionStartTime := collectionStartTime c |}.

Definition set_lastScrapeTime (c : Collector) (t : option Time) : Collector :=
  {| cache := cache c; data := data c; scrapeTime := scrapeTime c;
     sleepTime := sleepTime c; lastScrapeTime := t;
     collectionStartTime := collectionStartTime c |}.

(** Modelled from the spec: [SetNextSleepDuration] of [collector.go],
    which is not among the sources. The scheduler sleeps for the
    duration it is given here, the one [collectionSaveCache] reads. *)
Definition SetNextSleepDuration (c : Collector) (sleepDuration : Duration) : Collector :=
  {| cache := cache c; data := data c; scrapeTime := scrapeTime c;
     sleepTime := Some sleepDuration; lastScrapeTime := lastScrapeTime c;
     collectionStartTime := collectionStartTime c |}.

(** [url.Parse], as the caller has it. *)
Variable url_Parse : string → error + url.URL.

Definition azblobPathMessage (rawSpec : string) : error :=
  ConfigError ("azblob path needs to be specified as azblob://storageaccount.blob.core.windows.net/container/blob, got: " +:+ rawSpec).

(** The [azblob://] case of [SetCache], from [url.Parse] on; [spec0]
    is the record [c.cache] points to. *)
Definition SetCache_azblob (rawSpec : string) (spec0 : cacheSpecDef)
    (env : Environment) (w : World) : outcome unit * cacheSpecDef * World :=
  let spec1 :=
    {| protocol := cacheProtocolAzBlob; url := url spec0; tag := tag spec0;
       raw := raw spec0; spec := spec spec0; client := client spec0 |} in
  match url_Parse rawSpec with
  | inl err => let '(o, w') := logPanic err w in (o, spec1, w')
  | inr parsedUrl =>
      let spec2 :=
        {| protocol := protocol spec1; url := Some parsedUrl; tag := tag spec1;
           raw := raw spec1; spec := spec spec1; client := client spec1 |} in
      match NewArmClientFromEnvironment env with
      | Panicked err => (Panicked err, spec2, w)
      | Returned (Some err) => let '(o, w') := logPanic err w in (o, spec2, w')
      | Returned None =>
          let storageAccount := "https://" +:+ url.Hostname parsedUrl +:+ "/" in
          let pathParts := strings.SplitN (url.Path parsedUrl) "/" 2 in
          match pathParts with
          | container :: blob :: _ =>
              let spec3 :=
                {| protocol := protocol spec2; url := url spec2; tag := tag spec2;
                   raw := raw spec2;
                   spec := <["azblob:blob" := blob]>
                             (<["azblob:container" := container]> (spec spec2));
                   client := client spec2 |} in
              match GetCred env with
              | Some err => (Panicked err, spec3, w)
              | None =>
                  match NewClient env with
                  | Some err => let '(o, w') := logPanic err w in (o, spec3, w')
                  | None =>
                      (Returned (),
                       {| protocol := protocol spec3; url := url spec3;
                          tag := tag spec3; raw := raw spec3; spec := spec spec3;
                          client := Some {| azblob.serviceURL := storageAccount |} |},
                       w)
                  end
              end
          | _ =>
              let err := azblobPathMessage rawSpec in
              (Panicked err, spec2, logf PanicLevel (msgPanic err) w)
          end
      end
  end.

(** [c.SetCache(cache, cacheTag)]. *)
Definition SetCache (c : Collector) (cache : option string)
    (cacheTag : option string) (env : Environment) (w : World)
    : outcome unit * Collector * World :=
  match cache with
  | None => (Returned (), set_cache c None, w)
  | Some rawSpec =>
      let spec0 :=
        {| protocol := ""; url := None; tag := cacheTag; raw := rawSpec;
           spec := ∅; client := None |} in
      if strings.HasPrefix rawSpec "file://" then
        (Returned (),
         set_cache c (Some
           {| protocol := cacheProtocolFile; url := None; tag := cacheTag;
              raw := rawSpec;
              spec := <["file:path" := strings.TrimPrefix rawSpec "file://"]> ∅;
              client := None |}), w)
      else if strings.HasPrefix rawSpec "azblob://" then
        let '(o, spec', w') := SetCache_azblob rawSpec spec0 env w in
        (o, set_cache c (Some spec'), w')
      else
        (Returned (),
         set_cache c (Some
           {| protocol := cacheProtocolFile; url := None; tag := cacheTag;
              raw := rawSpec; spec := <["file:path" := rawSpec]> ∅;
              client := None |}), w)
  end.

(** [c.EnableCache(cache, cacheTag)]. *)
Definition EnableCache (c : Collector) (cache : string)
    (cacheTag : option string) (env : Environment) (w : World)
    : outcome unit * Collector * World :=
  SetCache c (Some cache) cacheTag env w.

(** [c.DisableCache()]. *)
Definition DisableCache (c : Collector) : Collector := set_cache c None.

Definition nilPointer : error :=
  RuntimeError "invalid memory address or nil pointer dereference".
Definition nilInterface : error :=
  RuntimeError "interface conversion: interface is nil, not *azblob.Client".

(** [c.cacheRead()]: a nil slice is [None]. *)
Definition cacheRead (c : Collector) (w : World) (f : Faults)
    : outcome (option bytes * bool) :=
  match cache c with
  | None => Panicked nilPointer
  | Some cs =>
      if String.eqb (protocol cs) cacheProtocolFile then
        let filePath := index (spec cs) "file:path" in
        if negb (IsNotExist (os.Stat (fs w) filePath (stat_fault f))) then
          let '(content, _) := os.ReadFile (fs w) filePath (readfile_fault f) in
          Returned (content, true)
        else Returned (None, false)
      else if String.eqb (protocol cs) cacheProtocolAzBlob then
        match client cs with
        | None => Panicked nilInterface
        | Some _ =>
            match azblob.DownloadStream (storage w)
                    (index (spec cs) "azblob:container")
                    (index (spec cs) "azblob:blob") (download_fault f) with
            | inr body =>
                match azblob.ReadAll body (readall_fault f) with
                | inr content => Returned (Some content, true)
                | inl _ => Returned (None, false)
                end
            | inl _ => Returned (None, false)
            end
        end
      else Returned (None, false)
  end.

(** The name of the temporary file of [cacheStore]. *)
Definition tmpFilePath (filePath : string) : string :=
  filepath.Join [filepath.Dir filePath;
                 "." +:+ filepath.Base filePath +:+ ".tmp"].

(** The [cacheProtocolFile] case of [cacheStore]. *)
Definition cacheStore_file (filePath : string) (content : bytes)
    (w : World) (f : Faults) : outcome unit * World :=
  let dirPath := filepath.Dir filePath in
  (* ensure directory *)
  let ensured :=
    if IsNotExist (os.Stat (fs w) dirPath (stat_fault f)) then
      match os.Mkdir (fs w) dirPath (mkdir_fault f) with
      | (fs1, Some err) => logPanic err (set_fs w fs1)
      | (fs1, None) => (Returned (), set_fs w fs1)
      end
    else (Returned (), w) in
  match ensured with
  | (Panicked err, w1) => (Panicked err, w1)
  | (Returned _, w1) =>
      (* write to temp file first *)
      match os.WriteFile (fs w1) (tmpFilePath filePath) content (writefile_fault f) with
      | (fs2, Some err) => logPanic err (set_fs w1 fs2)
      | (fs2, None) =>
          (* rename file to final cache file *)
          match os.Rename fs2 (tmpFilePath filePath) filePath (rename_fault f) with
          | (fs3, Some err) => logPanic err (set_fs w1 fs3)
          | (fs3, None) => (Returned (), set_fs w1 fs3)
          end
      end
  end.

(** [c.cacheStore(content)]. *)
Definition cacheStore (c : Collector) (content : bytes) (w : World) (f : Faults)
    : outcome unit * World :=
  match cache c with
  | None => (Panicked nilPointer, w)
  | Some cs =>
      if String.eqb (protocol cs) cacheProtocolFile then
        cacheStore_file (index (spec cs) "file:path") content w f
      else if String.eqb (protocol cs) cacheProtocolAzBlob then
        match client cs with
        | None => (Panicked nilInterface, w)
        | Some _ =>
            match azblob.UploadBuffer (storage w)
                    (index (spec cs) "azblob:container")
                    (index (spec cs) "azblob:blob") content (upload_fault f) with
            | (st, Some err) => logPanic err (set_storage w st)
            | (st, None) => (Returned (), set_storage w st)
            end
        end
      else (Returned (), w)
  end.

(** [json.Marshal(c.data)]. *)
Variable json_Marshal : CollectorData → error + bytes.

(** [json.Unmarshal(cacheContent, &restoredData)] into a fresh
    [NewCollectorData()]: the error, or the record read. *)
Variable json_Unmarshal : bytes → error + CollectorData.

(** [metricList.Init()] of the metric list, which is not among the
    sources. *)
Variable Init : MetricList → MetricList.

(** [c.collectionSaveCache()]; [now] is the reading of [time.Now()]. *)
Definition collectionSaveCache (c : Collector) (now : Time) (w : World)
    (f : Faults) : outcome unit * Collector * World :=
  match cache c with
  | None => (Returned (), c, w)
  | Some cs =>
      match sleepTime c with
      | None => (Panicked nilPointer, c, w)
      | Some sleep =>
          let expiryTime := Add now sleep in
          let c' :=
            set_data c
              {| Metrics := Metrics (data c);
                 Created := Some (collectionStartTime c);
                 Expiry := Some expiryTime;
                 Tag := tag cs |} in
          match json_Marshal (data c') with
          | inr jsonData =>
              match cacheStore c' jsonData w f with
              | (Panicked err, w') => (Panicked err, c', w')
              | (Returned _, w') =>
                  (Returned (), c', logf InfoLevel (msgSaved (raw cs) expiryTime) w')
              end
          | inl err => (Returned (), c', logf ErrorLevel (msgSerialize err) w)
          end
      end
  end.

(** One turn of the loop over [restoredData.Metrics]; the lists in both
    maps are behind non-nil pointers. *)
Definition restoreMetric (name : string) (restoreMetricList : MetricList)
    (metrics : gmap string MetricList) : gmap string MetricList :=
  match List restoreMetricList with
  | None => metrics
  | Some rows =>
      match metrics !! name with
      | Some metricList =>
          <[name := Init {| List := Some rows; state := state metricList |}]> metrics
      | None => metrics
      end
  end.

(** The tag check of [collectionRestoreCache]: [true] when the cache is
    to be ignored. *)
Definition tagMismatch (cs : cacheSpecDef) (restoredData : CollectorData) : bool :=
  match tag cs with
  | None => false
  | Some t =>
      match Tag restoredData with
      | None => true
      | Some t' => negb (String.eqb t t')
      end
  end.

(** The branch of [collectionRestoreCache] that restores the data;
    [now] is the reading of [time.Until]. *)
Definition restoreData (c : Collector) (cs : cacheSpecDef)
    (restoredData : CollectorData) (expiry : Time) (now : Time) (w : World)
    : Collector * World :=
  let c1 :=
    set_data c
      {| Metrics := map_fold restoreMetric (Metrics (data c)) (Metrics restoredData);
         Created := Created (data c);
         Expiry := Some expiry;
         Tag := Tag (data c) |} in
  let sleepTime := dadd (Until expiry now) (dmul 1 Minute) in
  let c2 :=
    match scrapeTime c1 with
    | Some scrape => if sleepTime <? scrape then SetNextSleepDuration c1 sleepTime else c1
    | None => c1
    end in
  let c3 :=
    match Created restoredData with
    | Some created => set_lastScrapeTime c2 (Some created)
    | None => c2
    end in
  (c3, logf InfoLevel (msgRestored (raw cs) expiry) w).

(** [c.collectionRestoreCache()]; [now1] is the reading of
    [time.Now()] in the expiry test, [now2] that of [time.Until]. *)
Definition collectionRestoreCache (c : Collector) (now1 now2 : Time)
    (w : World) (f : Faults) : outcome bool * Collector * World :=
  match cache c with
  | None => (Returned false, c, w)
  | Some cs =>
      match cacheRead c w f with
      | Panicked err => (Panicked err, c, w)
      | Returned (_, false) => (Returned false, c, w)
      | Returned (cacheContent, true) =>
          let w1 := logf InfoLevel (msgRestoring (raw cs)) w in
          match json_Unmarshal (default [] cacheContent) with
          | inl err => (Returned false, c, logf WarnLevel (msgDecode err) w1)
          | inr restoredData =>
              if tagMismatch cs restoredData then
                (Returned false, c, logf InfoLevel msgTagMismatch w1)
              else
                match Expiry restoredData with
                | Some expiry =>
                    if After expiry now1 then
                      let '(c', w2) := restoreData c cs restoredData expiry now2 w1 in
                      (Returned true, c', w2)
                    else (Returned false, c, logf InfoLevel msgExpired w1)
                | None => (Returned false, c, logf InfoLevel msgExpired w1)
                end
          end
      end
  end.

End Collector.

Arguments List {MetricRow MetricState} _.
Arguments state {MetricRow MetricState} _.
Arguments Metrics {MetricRow MetricState} _.
Arguments Created {MetricRow MetricState} _.
Arguments Expiry {MetricRow MetricState} _.
Arguments Tag {MetricRow MetricState} _.
Arguments cache {MetricRow MetricState} _.
Arguments data {MetricRow MetricState} _.
Arguments scrapeTime {MetricRow MetricState} _.
Arguments sleepTime {MetricRow MetricState} _.
Arguments lastScrapeTime {MetricRow MetricState} _.
Arguments collectionStartTime {MetricRow MetricState} _.
Arguments set_cache {MetricRow MetricState} c spec.
Arguments set_data {MetricRow MetricState} c d.
Arguments set_lastScrapeTime {MetricRow MetricState} c t.
Arguments SetNextSleepDuration {MetricRow MetricState} c sleepDuration.
Arguments SetCache {MetricRow MetricState} url_Parse c cache cacheTag env w.
Arguments cacheRead {MetricRow MetricState} c w f.
Arguments cacheStore {MetricRow MetricState} c content w f.
Arguments collectionSaveCache {MetricRow MetricState} json_Marshal c now w f.
Arguments restoreMetric {MetricRow MetricState} Init name restoreMetricList metrics.
Arguments tagMismatch {MetricRow MetricState} cs restoredData.
Arguments restoreData {MetricRow MetricState} Init c cs restoredData expiry now w.
Arguments collectionRestoreCache {MetricRow MetricState} json_Unmarshal Init c now1 now2 w f.

End collector.

(** ** A concrete instance

    Rows are integers, a metric list holds nothing but its rows, and the
    snapshot is written as an S-expression: a codec that stands for
    [encoding/json] wherever a statement is evaluated. *)

Module instance.
Import time collector.

Definition Row := Z.
Definition MetricList := collector.MetricList Row unit.
Definition CollectorData := collector.CollectorData Row unit.
Definition Collector := collector.Collector Row unit.

Definition Init (m : MetricList) : MetricList := m.

Definition entries (d : CollectorData) : list (string * option (list Z)) :=
  map_to_list (List <$> Metrics d).

Definition of_entries (l : list (string * option (list Z))) : gmap string MetricList :=
  (λ rows, {| List := rows; state := tt |}) <$> list_to_map l.

#[local] Instance Serialize_CollectorData : Serialize CollectorData :=
  fun d => [Atom "data"; to_sexp (entries d); to_sexp (Created d);
            to_sexp (Expiry d); to_sexp (Tag d)]%sexp.

#[local] Instance Deserialize_CollectorData : Deserialize CollectorData :=
  Deser.match_con "data" []
    [("data", Deser.con4_
                (fun (m : list (string * option (list Z))) (created expiry : option Z)
                     (t : option string) =>
                   {| Metrics := of_entries m; Created := created;
                      Expiry := expiry; Tag := t |}))].

Definition Marshal (d : CollectorData) : error + bytes :=
  inr (list_byte_of_string (to_string d)).

Definition Unmarshal (b : bytes) : error + CollectorData :=
  match from_string (string_of_list_byte b) with
  | inr d => inr d
  | inl _ => inl (JsonError "invalid character")
  end.

(** [to.StringLower]: nil gives the empty string. *)
Definition lower (a : ascii) : ascii :=
  let n := nat_of_ascii a in
  if (65 <=? n)%nat && (n <=? 90)%nat then ascii_of_nat (n + 32) else a.

Fixpoint lower_string (s : string) : string :=
  match s with
  | EmptyString => EmptyString
  | String a s' => String (lower a) (lower_string s')
  end.

Definition StringLower (s : option string) : string := lower_string (default "" s).

Definition emptyWorld : World :=
  {| fs := {| os.files := ∅; os.dirs := {["."]} |}; storage := ∅; log := [] |}.

Definition emptyData : CollectorData :=
  {| Metrics := ∅; Created := None; Expiry := None; Tag := None |}.

Definition newCollector : Collector :=
  {| cache := None; data := emptyData; scrapeTime := None; sleepTime := None;
     lastScrapeTime := None; collectionStartTime := 0 |}.

(** A collector that caches in the file [path]. *)
Definition fileCollector (path : string) (cacheTag : option string) : Collector :=
  set_cache newCollector (Some
    {| protocol := cacheProtocolFile; url := None; tag := cacheTag; raw := path;
       spec := <["file:path" := path]> ∅; client := None |}).

(** A collector that caches in the blob [name] of [container]. *)
Definition blobCollector (container name : string) (cacheTag : option string)
    : Collector :=
  set_cache newCollector (Some
    {| protocol := cacheProtocolAzBlob; url := None; tag := cacheTag;
       raw := "azblob://account.blob.core.windows.net/" +:+ container +:+ "/" +:+ name;
       spec := <["azblob:blob" := name]> (<["azblob:container" := container]> ∅);
       client := Some {| azblob.serviceURL := "https://account.blob.core.windows.net/" |} |}).

(** A world whose only file is [path]. *)
Definition fileWorld (path : string) (content : bytes) : World :=
  {| fs := {| os.files := {[path := content]}; os.dirs := {["."; "cache"]} |};
     storage := ∅; log := [] |}.

Definition oldContent : bytes := [Byte.x7b; Byte.x7d].
Definition newContent : bytes := [Byte.x7b; Byte.x22; Byte.x7d].

(** The device fills up after one byte of the temporary file. *)
Definition diskFull : Faults :=
  {| stat_fault := None; readfile_fault := None; mkdir_fault := None;
     writefile_fault := Some (os.WriteFails ENOSPC 1); rename_fault := None;
     download_fault := None; readall_fault := None; upload_fault := None |}.

(** The file is there but may not be opened. *)
Definition unreadable : Faults :=
  {| stat_fault := None; readfile_fault := Some (os.OpenFails EACCES);
     mkdir_fault := None; writefile_fault := None; rename_fault := None;
     download_fault := None; readall_fault := None; upload_fault := None |}.

(** The credential is refused by the storage account. *)
Definition unauthorized : Faults :=
  {| stat_fault := None; readfile_fault := None; mkdir_fault := None;
     writefile_fault := None; rename_fault := None;
     download_fault := Some AuthenticationFailed; readall_fault := None;
     upload_fault := None |}.

Definition blobWorld (container name : string) (content : bytes) : World :=
  {| fs := {| os.files := ∅; os.dirs := ∅ |};
     storage := {[(container, name) := content]}; log := [] |}.

Definition cachePath : string := "cache/metrics.json".

(** A collector at the end of a cycle that started at second 100; it
    scrapes every ten minutes and caches under the tag [v2]. *)
Definition savingCollector : Collector :=
  {| cache := cache (fileCollector cachePath (Some "v2"));
     data := {| Metrics := {["requests" := {| List := Some [1; 2; 3]; state := tt |}]};
                Created := None; Expiry := None; Tag := None |};
     scrapeTime := Some (600 * Second);
     sleepTime := Some (600 * Second);
     lastScrapeTime := None;
     collectionStartTime := 100 * Second |}.

(** The record it saves at second 130, and the bytes of the record. *)
Definition savedRecord : CollectorData :=
  {| Metrics := {["requests" := {| List := Some [1; 2; 3]; state := tt |}]};
     Created := Some (100 * Second);
     Expiry := Some (730 * Second);
     Tag := Some "v2" |}.

Definition savedBytes : bytes := list_byte_of_string (to_string savedRecord).

(** The world after that save. *)
Definition savedWorld : World :=
  (collectionSaveCache Marshal savingCollector (130 * Second)
     (fileWorld cachePath oldContent) no_faults).2.

(** A collector just started, with the metrics [metrics] registered and
    the cache tag [cacheTag]. *)
Definition startedCollector (metrics : gmap string MetricList)
    (cacheTag : option string) : Collector :=
  {| cache := cache (fileCollector cachePath cacheTag);
     data := {| Metrics := metrics; Created := None; Expiry := None; Tag := None |};
     scrapeTime := Some (600 * Second);
     sleepTime := Some (600 * Second);
     lastScrapeTime := None;
     collectionStartTime := 0 |}.

Definition placeholder : MetricList := {| List := Some []; state := tt |}.

(** The cache directory may not be made. *)
Definition noPermission : Faults :=
  {| stat_fault := None; readfile_fault := None; mkdir_fault := Some EACCES;
     writefile_fault := None; rename_fault := None; download_fault := None;
     readall_fault := None; upload_fault := None |}.

(** An encoder that refuses every value. *)
Definition refuse (d : CollectorData) : error + bytes :=
  inl (JsonError "unsupported type").

(** The spec of a cache in the file [cachePath]. *)
Definition cacheFileSpec (cacheTag : option string) : cacheSpecDef :=
  {| protocol := cacheProtocolFile; url := None; tag := cacheTag; raw := cachePath;
     spec := <["file:path" := cachePath]> ∅; client := None |}.

(** The spec of [blobCollector]. *)
Definition blobSpec (container name : string) (cacheTag : option string) : cacheSpecDef :=
  {| protocol := cacheProtocolAzBlob; url := None; tag := cacheTag;
     raw := "azblob://account.blob.core.windows.net/" +:+ container +:+ "/" +:+ name;
     spec := <["azblob:blob" := name]> (<["azblob:container" := container]> ∅);
     client := Some {| azblob.serviceURL := "https://account.blob.core.windows.net/" |} |}.

(** The environment in which every constructor succeeds. *)
Definition goodEnvironment : Environment :=
  {| NewArmClientFromEnvironment := Returned None; GetCred := None;
     NewClient := None |}.

End instance.

(** ** More of [ArmClient]: its constructors and settings *)

Module armclient_setup.
Import time armclient.

(** [azureClient.SetCacheTtl(ttl)]. *)
Definition SetCacheTtl (azureClient : ArmClient) (ttl : Duration) : ArmClient :=
  {| cache := cache azureClient; cacheTtl := ttl |}.

(** [NewArmClientWithCloudName(cloudName, logger)]; [NewCloudConfig] is
    [cloudconfig.NewCloudConfig], which gives the message of its error or
    a configuration. [logger.Panic] panics with the message. *)
Definition NewArmClientWithCloudName (NewCloudConfig : string → string + unit)
    (cloudName : string) : outcome (ArmClient * option error) :=
  match NewCloudConfig cloudName with
  | inl msg => Panicked (ConfigError msg)
  | inr _ => Returned (NewArmClient, None)
  end.

(** [NewArmClientFromEnvironment(logger)]; [Getenv] is [os.Getenv]. *)
Definition NewArmClientFromEnvironment (Getenv : string → string)
    (NewCloudConfig : string → string + unit) : outcome (ArmClient * option error) :=
  let azureEnvironment := Getenv "AZURE_ENVIRONMENT" in
  if String.eqb azureEnvironment ""
  then Panicked (ConfigError "env var AZURE_ENVIRONMENT is not set")
  else NewArmClientWithCloudName NewCloudConfig azureEnvironment.

(** An entry written at [now'] for the duration [d] has not lapsed at [t]:
    it never lapses, or [t] is not after its expiration and both are
    within the range of [UnixNano]. *)
Definition fresh (c : Cache) (now' : Time) (d : Duration) (t : Time) : Prop :=
  let d := if d =? DefaultExpiration then defaultExpiration c else d in
  d ≤ 0 ∨ (minDuration ≤ t ∧ t ≤ now' + d ∧ now' + d ≤ maxDuration).

(** The entry has lapsed at [t]. *)
Definition lapsed (c : Cache) (now' : Time) (d : Duration) (t : Time) : Prop :=
  let d := if d =? DefaultExpiration then defaultExpiration c else d in
  0 < d ∧ 0 < now' + d ∧ now' + d < t ∧ t ≤ maxDuration.

(** The resource groups of the pages, in the order they are listed. *)
Definition allGroups (ps : list page) : list ResourceGroup :=
  concat (map (λ p : page, match p with inr (Some value) => value | _ => [] end) ps).

(** No page fails. *)
Definition allPagesOk (ps : list page) : Prop :=
  Forall (λ p : page, match p with inl _ => False | inr _ => True end) ps.

(** Two resource groups. *)
Definition groupA : ResourceGroup := {| rgName := Some "RG-A"; rgID := "/a" |}.
Definition groupB : ResourceGroup := {| rgName := Some "rg-b"; rgID := "/b" |}.

End armclient_setup.

(** ** The credential of [ArmClient] *)

Module armclient_cred.
Import armclient.

Section Credential.
(** [azcore.TokenCredential]. *)
Context {TokenCredential : Type}.

(** [azureClient.GetCred()]. [cred] is the field of the client that holds
    the credential, [NewAzDefaultCredential] what making one gives. The
    credential comes back with the field as the call leaves it; when none
    can be made the call panics with the error. *)
Definition GetCred (cred : option TokenCredential)
    (NewAzDefaultCredential : error + TokenCredential)
    : outcome (TokenCredential * option TokenCredential) :=
  match cred with
  | Some c => Returned (c, cred)
  | None =>
      match NewAzDefaultCredential with
      | inl err => Panicked err
      | inr c => Returned (c, Some c)
      end
  end.

(** [azureClient.ListResourceGroups(ctx, subscriptionID)] from its first
    step: [GetCred] is called for the argument of
    [NewResourceGroupsClient], and what follows its return is
    [armclient.ListResourceGroups]. The result comes with the field [cred]
    as the call leaves it. *)
Definition ListResourceGroups (StringLower : option string → string)
    (cred : option TokenCredential)
    (NewAzDefaultCredential : error + TokenCredential) (api : Api)
    : outcome ((option (gmap string ResourceGroup) * option error)
               * option TokenCredential) :=
  match GetCred cred NewAzDefaultCredential with
  | Panicked err => Panicked err
  | Returned (_, cred') =>
      Returned (armclient.ListResourceGroups StringLower api, cred')
  end.
End Credential.

End armclient_cred.

(** ** The client of package [azure] *)

Module azure.
Import time.

(** [subscriptions.Subscription] and [resources.Group], reduced to the
    fields the code reads. *)
Record Subscription := { SubscriptionID : option string; DisplayName : option string }.
Record Group := { Name : option string; Location : option string }.

(** The [interface{}] values kept in the cache. *)
Inductive any :=
| anyNil
| anySubscriptions (l : option (list Subscription))
| anyGroups (m : option (gmap string Group))
| anyOther (payload : string).

(** go-cache, as in [armclient]. *)
Record Item := { Object : any; Expiration : Z }.

Record Cache := { defaultExpiration : Duration; items : gmap string Item }.

Definition DefaultExpiration : Duration := 0.

Definition cache_New (d : Duration) : Cache :=
  {| defaultExpiration := d; items := ∅ |}.

Definition Get (c : Cache) (now : Time) (k : string) : any * bool :=
  match items c !! k with
  | None => (anyNil, false)
  | Some item =>
      if (0 <? Expiration item) && (Expiration item <? UnixNano now)
      then (anyNil, false)
      else (Object item, true)
  end.

Definition Set_ (c : Cache) (now : Time) (k : string) (x : any) (d : Duration) : Cache :=
  let d := if d =? DefaultExpiration then defaultExpiration c else d in
  let e := if 0 <? d then UnixNano (Add now d) else 0 in
  {| defaultExpiration := defaultExpiration c;
     items := <[k := {| Object := x; Expiration := e |}]> (items c) |}.

Record Client := { cache : Cache; cacheTtl : Duration; userAgent : string }.

(** [NewClient(environment, authorizer, logger)]. *)
Definition NewClient : Client :=
  {| cache := cache_New (dmul 60 Minute); cacheTtl := dmul 30 Minute; userAgent := "" |}.

(** [azureClient.SetUserAgent(useragent)]. *)
Definition SetUserAgent (azureClient : Client) (useragent : string) : Client :=
  {| cache := cache azureClient; cacheTtl := cacheTtl azureClient;
     userAgent := useragent |}.

(** [azureClient.SetCacheTtl(ttl)]. *)
Definition SetCacheTtl (azureClient : Client) (ttl : Duration) : Client :=
  {| cache := cache azureClient; cacheTtl := ttl; userAgent := userAgent azureClient |}.

Definition set_cache (azureClient : Client) (c : Cache) : Client :=
  {| cache := c; cacheTtl := cacheTtl azureClient; userAgent := userAgent azureClient |}.

(** What [ListComplete] gives: an error, or an iterator; each row comes
    with the error of the call to [NextWithContext] that follows it. *)
Record Listing (Row : Type) := {
  listError : option error;
  rows : list (Row * option error)
}.
Arguments listError {Row} _.
Arguments rows {Row} _.

(** The loop [for result.NotDone()] of [ListSubscriptions]. *)
Fixpoint appendRows (rs : list (Subscription * option error))
    (list : Datatypes.list Subscription) : Datatypes.list Subscription :=
  match rs with
  | [] => list
  | (row, next) :: rs' =>
      let list := (list ++ [row])%list in
      match next with
      | Some _ => list
      | None => appendRows rs' list
      end
  end.

(** [azureClient.ListSubscriptions(ctx)]. *)
Definition ListSubscriptions (api : Listing Subscription)
    : option (list Subscription) * option error :=
  match listError api with
  | Some err => (Some [], Some err)
  | None => (Some (appendRows (rows api) []), None)
  end.

(** [azureClient.ListCachedSubscriptions(ctx)]; [now] is the clock reading
    of [Get], [now'] that of [Set]. *)
Definition ListCachedSubscriptions (azureClient : Client) (now now' : Time)
    (api : Listing Subscription)
    : (option (list Subscription) * option error) * Client :=
  let cacheKey := "subscriptions" in
  let refresh :=
    match ListSubscriptions api with
    | (_, Some err) => ((None, Some err), azureClient)
    | (list, None) =>
        ((list, None),
         set_cache azureClient
           (Set_ (cache azureClient) now' cacheKey (anySubscriptions list)
                 (cacheTtl azureClient)))
    end in
  match Get (cache azureClient) now cacheKey with
  | (anySubscriptions cacheData, true) => ((cacheData, None), azureClient)
  | _ => refresh
  end.

Definition nilPointer : error :=
  RuntimeError "invalid memory address or nil pointer dereference".

Section ResourceGroups.

(** [strings.ToLower]. *)
Variable ToLower : string → string.

(** [to.String] of go-autorest: the empty string for nil. *)
Definition to_String (s : option string) : string := default "" s.

(** The loop [for result.NotDone()] of [ListResourceGroups]. *)
Fixpoint putRows (rs : list (Group * option error)) (list : gmap string Group)
    : gmap string Group :=
  match rs with
  | [] => list
  | (row, next) :: rs' =>
      let list := <[ToLower (to_String (Name row)) := row]> list in
      match next with
      | Some _ => list
      | None => putRows rs' list
      end
  end.

(** [azureClient.ListResourceGroups(ctx, subscription)]: the subscription
    ID is dereferenced for the client. *)
Definition ListResourceGroups (subscription : Subscription) (api : Listing Group)
    : outcome (option (gmap string Group) * option error) :=
  match SubscriptionID subscription with
  | None => Panicked nilPointer
  | Some _ =>
      match listError api with
      | Some err => Returned (Some ∅, Some err)
      | None => Returned (Some (putRows (rows api) ∅), None)
      end
  end.

(** [azureClient.ListCachedResourceGroups(ctx, subscription)]: on a miss
    the subscription ID is dereferenced for the log line. *)
Definition ListCachedResourceGroups (azureClient : Client) (now now' : Time)
    (subscription : Subscription) (api : Listing Group)
    : outcome ((option (gmap string Group) * option error) * Client) :=
  let cacheKey := "resourcegroups:" +:+ to_String (SubscriptionID subscription) in
  let refresh :=
    match SubscriptionID subscription with
    | None => Panicked nilPointer
    | Some _ =>
        match ListResourceGroups subscription api with
        | Panicked err => Panicked err
        | Returned (list, Some err) => Returned ((list, Some err), azureClient)
        | Returned (list, None) =>
            Returned
              ((list, None),
               set_cache azureClient
                 (Set_ (cache azureClient) now' cacheKey (anyGroups list)
                       (cacheTtl azureClient)))
        end
    end in
  match Get (cache azureClient) now cacheKey with
  | (anyGroups cacheData, true) => Returned ((cacheData, None), azureClient)
  | _ => refresh
  end.

End ResourceGroups.

(** An entry written at [now'] for the duration [d] has not lapsed at [t]. *)
Definition fresh (c : Cache) (now' : Time) (d : Duration) (t : Time) : Prop :=
  let d := if d =? DefaultExpiration then defaultExpiration c else d in
  d ≤ 0 ∨ (minDuration ≤ t ∧ t ≤ now' + d ∧ now' + d ≤ maxDuration).

(** Every call to [NextWithContext] after these rows succeeds. *)
Definition advancesOk {Row} (rs : list (Row * option error)) : Prop :=
  Forall (λ r : Row * option error, r.2 = None) rs.

(** Two subscriptions. *)
Definition subscriptionA : Subscription :=
  {| SubscriptionID := Some "sub-a"; DisplayName := Some "A" |}.
Definition subscriptionB : Subscription :=
  {| SubscriptionID := Some "sub-b"; DisplayName := Some "B" |}.

(** A subscription without an ID. *)
Definition anonymous : Subscription :=
  {| SubscriptionID := None; DisplayName := None |}.

End azure.

(** * Properties *)

(** ** The discovery cache *)

Module armclient_facts.
Import time armclient.

Lemma Get_miss_None c now k :
  items c !! k = None → Get c now k = (anyNil, false).
Proof. intros H. unfold Get. by rewrite H. Qed.

Lemma Set_lookup c now k x d :
  ∃ e, items (Set_ c now k x d) !! k = Some {| Object := x; Expiration := e |}.
Proof. unfold Set_; simpl. eexists. apply lookup_insert_eq. Qed.

Lemma Set_lookup_ne c now k k' x d :
  k ≠ k' → items (Set_ c now k x d) !! k' = items c !! k'.
Proof. intros Hne. unfold Set_; simpl. by apply lookup_insert_ne. Qed.

(** On a hit the callback is not run: the world and the client are as
    before, and the cached value is returned without an error. *)
Lemma cacheData_hit {World} (azureClient : ArmClient) now now' identifier
    (callback : World → (any * option error) * World) w v :
  Get (cache azureClient) now identifier = (v, true) →
  cacheData azureClient now now' identifier callback w = ((v, None), azureClient, w).
Proof. intros H. unfold cacheData. by rewrite H. Qed.

(** A page that fails ends the listing with the error and a nil map. *)
Lemma listPages_error StringLower ps list l err :
  listPages StringLower ps list = (l, Some err) → l = None.
Proof.
  revert list. induction ps as [|[e|[value|]] ps IH]; intros list H; simpl in H.
  - congruence.
  - congruence.
  - eauto.
  - eauto.
Qed.

Lemma ListResourceGroups_error StringLower api l err :
  ListResourceGroups StringLower api = (l, Some err) → l = None.
Proof.
  unfold ListResourceGroups. destruct (newClientError api).
  - congruence.
  - apply listPages_error.
Qed.

(** C8. Compute-if-absent. When [cacheData] misses, the callback runs
    once and its result and error are returned as they are; a result
    without error is stored under the identifier, and after an error the
    client and its cache are exactly as before. [ListCachedResourceGroups]
    does the same with [ListResourceGroups] as producer whenever the
    cache has no resource group map under the key. *)
Theorem compute_if_absent :
  (∀ World (azureClient : ArmClient) now now' identifier
     (callback : World → (any * option error) * World) w result err w',
      snd (Get (cache azureClient) now identifier) = false →
      callback w = ((result, err), w') →
      ∃ azureClient',
        cacheData azureClient now now' identifier callback w
          = ((result, err), azureClient', w') ∧
        (err = None →
           (∃ e, items (cache azureClient') !! identifier
                   = Some {| Object := result; Expiration := e |}) ∧
           ∀ k, k ≠ identifier →
                items (cache azureClient') !! k = items (cache azureClient) !! k) ∧
        (err ≠ None → azureClient' = azureClient)) ∧
  (∀ StringLower (azureClient : ArmClient) now now' subscriptionID api list err,
      (∀ m, Get (cache azureClient) now ("resourcegroups:" +:+ subscriptionID)
              ≠ (anyResourceGroups m, true)) →
      ListResourceGroups StringLower api = (list, err) →
      ∃ azureClient',
        ListCachedResourceGroups StringLower azureClient now now' subscriptionID api
          = ((list, err), azureClient') ∧
        (err = None →
           ∃ e, items (cache azureClient') !! ("resourcegroups:" +:+ subscriptionID)
                  = Some {| Object := anyResourceGroups list; Expiration := e |}) ∧
        (err ≠ None → azureClient' = azureClient)).
Proof.
  split.
  - intros World azureClient now now' identifier callback w result err w' Hmiss Hcb.
    unfold cacheData.
    destruct (Get (cache azureClient) now identifier) as [v found] eqn:Hget.
    simpl in Hmiss. subst found. rewrite Hcb.
    destruct err as [e|].
    + exists azureClient. split; [done|]. split; [done|]. done.
    + eexists. split; [reflexivity|]. split; [|done].
      intros _. split.
      * apply Set_lookup.
      * intros k Hk. apply (Set_lookup_ne (cache azureClient)). congruence.
  - intros StringLower azureClient now now' subscriptionID api list err Hmiss Hprod.
    unfold ListCachedResourceGroups. rewrite Hprod.
    destruct (Get (cache azureClient) now ("resourcegroups:" +:+ subscriptionID))
      as [v found] eqn:Hget.
    destruct err as [e|].
    + exists azureClient. split; [|done].
      destruct v as [|m|p], found; try reflexivity.
      exfalso. by apply (Hmiss m).
    + eexists. split.
      * destruct v as [|m|p], found; try reflexivity.
        exfalso. by apply (Hmiss m).
      * split; [|done]. intros _. simpl. apply Set_lookup.
Qed.

(** A client with an empty cache whose producer fails with an
    authentication error. *)
Lemma compute_if_absent_witness :
  (∃ azureClient',
     cacheData NewArmClient 0 1 "subscriptions"
       (λ n : nat, ((anyNil, Some AuthenticationFailed), S n)) 0%nat
       = ((anyNil, Some AuthenticationFailed), azureClient', 1%nat) ∧
     azureClient' = NewArmClient) ∧
  (∃ azureClient',
     ListCachedResourceGroups instance.StringLower NewArmClient 0 1 "sub"
       {| newClientError := None; pages := [inl (TransportError "reset")] |}
       = ((None, Some (TransportError "reset")), azureClient') ∧
     azureClient' = NewArmClient).
Proof.
  destruct compute_if_absent as [H1 H2]. split.
  - destruct (H1 nat NewArmClient 0 1 "subscriptions"
                (λ n : nat, ((anyNil, Some AuthenticationFailed), S n)) 0%nat
                anyNil (Some AuthenticationFailed) 1%nat) as (a & Ha & _ & Hkeep).
    + reflexivity.
    + reflexivity.
    + exists a. split; [exact Ha|]. apply Hkeep. discriminate.
  - destruct (H2 instance.StringLower NewArmClient 0 1 "sub"
                {| newClientError := None; pages := [inl (TransportError "reset")] |}
                None (Some (TransportError "reset"))) as (a & Ha & _ & Hkeep).
    + intros m. vm_compute. discriminate.
    + reflexivity.
    + exists a. split; [exact Ha|]. apply Hkeep. discriminate.
Defined.

End armclient_facts.

(** ** Resolving the cache location *)

Module location_facts.
Import time collector.

Lemma SplitN_rooted rest :
  strings.SplitN (String "/" rest) "/" 2 = [""; rest].
Proof. reflexivity. Qed.

Lemma azblob_not_file rawSpec :
  strings.HasPrefix rawSpec "azblob://" = true →
  strings.HasPrefix rawSpec "file://" = false.
Proof.
  unfold strings.HasPrefix.
  destruct rawSpec as [|[[] [] [] [] [] [] [] []] r]; simpl; done.
Qed.

(** C3. An [azblob://] location whose parsed path starts with a slash
    passes the check of the path parts whatever follows the slash: the
    container is set to the empty string and the blob to the whole rest
    of the path, here with constructors that succeed. So
    [azblob://account/container], which names no blob, is accepted. *)
Theorem SetCache_azblob_rooted_path {MetricRow MetricState}
    (url_Parse : string → error + url.URL)
    (c : Collector MetricRow MetricState) rawSpec cacheTag env w parsedUrl rest :
  strings.HasPrefix rawSpec "azblob://" = true →
  url_Parse rawSpec = inr parsedUrl →
  url.Path parsedUrl = String "/" rest →
  NewArmClientFromEnvironment env = Returned None →
  GetCred env = None →
  NewClient env = None →
  ∃ c' cs,
    SetCache url_Parse c (Some rawSpec) cacheTag env w = (Returned (), c', w) ∧
    cache c' = Some cs ∧
    protocol cs = cacheProtocolAzBlob ∧
    spec cs !! "azblob:container" = Some "" ∧
    spec cs !! "azblob:blob" = Some rest.
Proof.
  intros Hpre Hparse Hpath Harm Hcred Hclient.
  unfold SetCache. rewrite (azblob_not_file _ Hpre), Hpre.
  unfold SetCache_azblob. rewrite Hparse, Harm, Hpath, SplitN_rooted, Hcred, Hclient.
  eexists _, _. split; [reflexivity|]. split; [reflexivity|].
  split; [reflexivity|]. simpl. split.
  - rewrite lookup_insert_ne by done. apply lookup_insert_eq.
  - apply lookup_insert_eq.
Qed.

(** The location [azblob://account.blob.core.windows.net/container]. *)
Lemma SetCache_azblob_rooted_path_witness :
  ∃ c' cs,
    SetCache url.Parse instance.newCollector
      (Some "azblob://account.blob.core.windows.net/container") None
      instance.goodEnvironment instance.emptyWorld
      = (Returned (), c', instance.emptyWorld) ∧
    cache c' = Some cs ∧
    protocol cs = cacheProtocolAzBlob ∧
    spec cs !! "azblob:container" = Some "" ∧
    spec cs !! "azblob:blob" = Some "container".
Proof.
  apply (SetCache_azblob_rooted_path url.Parse instance.newCollector
           "azblob://account.blob.core.windows.net/container" None
           instance.goodEnvironment instance.emptyWorld
           {| url.Scheme := "azblob"; url.Host := "account.blob.core.windows.net";
              url.Path := "/container" |} "container");
    reflexivity.
Defined.

(** The documented form [.../container/blob] is split the same way. *)
Example SetCache_documented_form :
  ∃ c' cs,
    SetCache url.Parse instance.newCollector
      (Some "azblob://storageaccount.blob.core.windows.net/container/blob") None
      instance.goodEnvironment instance.emptyWorld
      = (Returned (), c', instance.emptyWorld) ∧
    cache c' = Some cs ∧
    spec cs !! "azblob:container" = Some "" ∧
    spec cs !! "azblob:blob" = Some "container/blob".
Proof. eexists _, _. repeat split; vm_compute; reflexivity. Qed.

(** Only an empty path is refused. *)
Lemma SetCache_azblob_empty_path {MetricRow MetricState}
    (url_Parse : string → error + url.URL)
    (c : Collector MetricRow MetricState) rawSpec cacheTag env w parsedUrl :
  strings.HasPrefix rawSpec "azblob://" = true →
  url_Parse rawSpec = inr parsedUrl →
  url.Path parsedUrl = "" →
  NewArmClientFromEnvironment env = Returned None →
  ∃ c' w',
    SetCache url_Parse c (Some rawSpec) cacheTag env w
      = (Panicked (azblobPathMessage rawSpec), c', w').
Proof.
  intros Hpre Hparse Hpath Harm.
  unfold SetCache. rewrite (azblob_not_file _ Hpre), Hpre.
  unfold SetCache_azblob. rewrite Hparse, Harm, Hpath. simpl.
  eexists _, _. reflexivity.
Qed.

End location_facts.

(** ** Paths *)

Module filepath_facts.
Import filepath.

Lemma length_append (s1 s2 : string) :
  String.length (s1 +:+ s2) = (String.length s1 + String.length s2)%nat.
Proof. induction s1 as [|a s1 IH]; simpl; [done|]. by rewrite IH. Qed.

Lemma append_cons a (s t : string) : String a s +:+ t = String a (s +:+ t).
Proof. reflexivity. Qed.

Lemma append_assoc (s1 s2 s3 : string) : (s1 +:+ s2) +:+ s3 = s1 +:+ (s2 +:+ s3).
Proof. induction s1 as [|a s1 IH]; [done|]. by rewrite !append_cons, IH. Qed.

Lemma split_on_not_nil c s : split_on c s ≠ [].
Proof.
  destruct s as [|a s]; simpl; [done|].
  destruct (Ascii.eqb a c); [done|]. by destruct (split_on c s).
Qed.

Lemma split_on_sepfree e : sepfree e = true → split_on Separator e = [e].
Proof.
  induction e as [|a e IH]; simpl; [done|].
  intros [Ha He]%andb_true_iff. apply negb_true_iff in Ha. rewrite Ha.
  by rewrite IH.
Qed.

Lemma split_on_snoc d e :
  sepfree e = true →
  split_on Separator (d +:+ String Separator e) = (split_on Separator d ++ [e])%list.
Proof.
  intros He. induction d as [|a d IH].
  - simpl. by rewrite split_on_sepfree.
  - rewrite append_cons. simpl.
    destruct (Ascii.eqb a Separator); [by rewrite IH|].
    rewrite IH. destruct (split_on Separator d) eqn:Hd; [|done].
    by apply split_on_not_nil in Hd.
Qed.

Lemma split_on_elems s : Forall (λ e, sepfree e = true) (split_on Separator s).
Proof.
  induction s as [|a s IH]; simpl.
  - by constructor.
  - destruct (Ascii.eqb a Separator) eqn:Ha; [by constructor|].
    destruct (split_on Separator s) as [|x xs]; inversion IH; subst;
      (constructor; [|done]); simpl; rewrite Ha; simpl; done.
Qed.

Lemma clean_elems_snoc r stack l e :
  proper e = true →
  clean_elems r stack (l ++ [e])%list = (clean_elems r stack l ++ [e])%list.
Proof.
  intros He. revert stack. induction l as [|x l IH]; intros stack; simpl.
  - unfold proper in He.
    destruct (String.eqb e "" || is_dot e); [done|].
    destruct (is_dotdot e); [done|]. done.
  - destruct (String.eqb x "" || is_dot x); [apply IH|].
    destruct (is_dotdot x).
    + destruct stack as [|top stack'].
      * destruct r; apply IH.
      * destruct (is_dotdot top); apply IH.
    + apply IH.
Qed.

Lemma join_snoc l e :
  join (l ++ [e])%list = match l with [] => e | _ => join l +:+ String Separator e end.
Proof.
  induction l as [|x l IH]; [done|].
  destruct l as [|y l]; [done|].
  change (join ((x :: y :: l) ++ [e])%list)
    with (x +:+ String Separator (join ((y :: l) ++ [e])%list)).
  rewrite IH.
  change (join (x :: y :: l)) with (x +:+ String Separator (join (y :: l))).
  rewrite append_assoc. done.
Qed.

Lemma append_not_empty (d : string) a e : d +:+ String a e ≠ "".
Proof. by destruct d. Qed.

Lemma eqb_empty_false (s : string) : s ≠ "" → String.eqb s "" = false.
Proof. intros H. by apply String.eqb_neq. Qed.

Lemma last_elem_snoc l e : e ≠ "" → last_elem (l ++ [e])%list = Some e.
Proof.
  intros He. unfold last_elem. rewrite filter_app, filter_cons_True by done.
  apply last_snoc.
Qed.

Lemma Base_snoc d e :
  sepfree e = true → e ≠ "" → Base (d +:+ String Separator e) = e.
Proof.
  intros Hs He. unfold Base.
  rewrite eqb_empty_false by apply append_not_empty.
  by rewrite split_on_snoc, last_elem_snoc.
Qed.

Lemma Base_sepfree e : sepfree e = true → e ≠ "" → Base e = e.
Proof.
  intros Hs He. unfold Base. rewrite eqb_empty_false by done.
  rewrite split_on_sepfree by done.
  change [e] with ([] ++ [e])%list. by rewrite last_elem_snoc.
Qed.

Lemma proper_not_empty e : proper e = true → e ≠ "".
Proof. intros H ->. discriminate. Qed.

Lemma rooted_append d t : d ≠ "" → rooted (d +:+ t) = rooted d.
Proof. by destruct d. Qed.

(** The last element of a cleaned path is the last element given, when
    [Clean] keeps that one. *)
Lemma Base_Clean_snoc d e :
  proper e = true → sepfree e = true → d ≠ "" →
  Base (Clean (d +:+ String Separator e)) = e.
Proof.
  intros Hp Hs Hd. pose proof (proper_not_empty _ Hp) as He.
  unfold Clean. rewrite rooted_append, split_on_snoc, clean_elems_snoc, join_snoc by done.
  destruct (clean_elems (rooted d) [] (split_on Separator d)) as [|x xs] eqn:Hx.
  - destruct (rooted d).
    + by apply (Base_snoc "").
    + rewrite eqb_empty_false by done. by apply Base_sepfree.
  - destruct (rooted d).
    + rewrite <- append_cons. by apply Base_snoc.
    + rewrite eqb_empty_false by apply append_not_empty. by apply Base_snoc.
Qed.

Lemma Clean_not_empty path : Clean path ≠ "".
Proof.
  unfold Clean. destruct (rooted path); [done|].
  destruct (String.eqb _ "") eqn:H; [done|]. by apply String.eqb_neq.
Qed.

Lemma Dir_not_empty path : Dir path ≠ "".
Proof. apply Clean_not_empty. Qed.

(** [Base] returns a single separator, or an element without one. *)
Lemma Base_cases path :
  Base path = String Separator "" ∨ (sepfree (Base path) = true ∧ Base path ≠ "").
Proof.
  unfold Base. destruct (String.eqb path ""); [by right|].
  destruct (last_elem (split_on Separator path)) as [e|] eqn:Hl; [right|by left].
  unfold last_elem in Hl. apply last_Some_elem_of in Hl.
  apply list_elem_of_filter in Hl as [He Hin]. split; [|done].
  pose proof (split_on_elems path) as Hall.
  rewrite Forall_forall in Hall. by apply Hall.
Qed.

Lemma sepfree_append s t : sepfree s = true → sepfree t = true → sepfree (s +:+ t) = true.
Proof.
  intros Hs Ht. induction s as [|a s IH]; [done|].
  rewrite append_cons. simpl in *. apply andb_true_iff in Hs as [Ha Hs].
  rewrite Ha. by apply IH.
Qed.

Lemma proper_long e : (2 < String.length e)%nat → proper e = true.
Proof.
  intros Hlen. unfold proper, is_dot, is_dotdot.
  assert (e ≠ "" ∧ e ≠ "." ∧ e ≠ "..") as (H0 & H1 & H2).
  { repeat split; intros ->; simpl in Hlen; lia. }
  apply String.eqb_neq in H0, H1, H2. by rewrite H0, H1, H2.
Qed.

(** The temporary file never has the name of the destination. *)
Lemma tmpFilePath_ne filePath : collector.tmpFilePath filePath ≠ filePath.
Proof.
  unfold collector.tmpFilePath, Join.
  rewrite (eqb_empty_false _ (Dir_not_empty filePath)).
  change (join [Dir filePath; "." +:+ Base filePath +:+ ".tmp"])
    with (Dir filePath +:+ String Separator ("." +:+ Base filePath +:+ ".tmp")).
  intros Heq. apply (f_equal Base) in Heq.
  destruct (Base_cases filePath) as [Hroot|[Hs Hne]].
  - rewrite Hroot in Heq at 1.
    change (Dir filePath +:+ String Separator ("." +:+ String Separator "" +:+ ".tmp"))
      with (Dir filePath +:+ (String Separator "." +:+ String Separator ".tmp")) in Heq.
    rewrite <- append_assoc in Heq.
    rewrite Base_Clean_snoc in Heq; [|done|done|].
    + by rewrite Hroot in Heq.
    + intros H. apply (f_equal String.length) in H.
      rewrite length_append in H. simpl in H. lia.
  - rewrite Base_Clean_snoc in Heq.
    + apply (f_equal String.length) in Heq.
      rewrite !length_append in Heq. simpl in Heq. lia.
    + apply proper_long. rewrite !length_append. simpl. lia.
    + apply (sepfree_append "."); [done|]. by apply sepfree_append.
    + apply Dir_not_empty.
Qed.

End filepath_facts.

(** ** Reading and writing the snapshot *)

Module store_facts.
Import time collector.

Section Store.
Context {MetricRow MetricState : Type}.
Implicit Types (c : Collector MetricRow MetricState) (cs : cacheSpecDef).
Implicit Types (w : World) (f : Faults).

Lemma Mkdir_files fs path fault :
  os.files (os.Mkdir fs path fault).1 = os.files fs.
Proof.
  unfold os.Mkdir. destruct fault; [done|]. by destruct (os.exists_ fs path).
Qed.

Lemma WriteFile_files_ne fs path data fault p :
  p ≠ path →
  os.files (os.WriteFile fs path data fault).1 !! p = os.files fs !! p.
Proof.
  intros Hne. unfold os.WriteFile. destruct fault as [[e|e n]|]; simpl.
  - done.
  - by rewrite lookup_insert_ne.
  - destruct (bool_decide _); simpl; [done|]. by rewrite lookup_insert_ne.
Qed.

Lemma Rename_error fs oldpath newpath fault fs' err :
  os.Rename fs oldpath newpath fault = (fs', Some err) → fs' = fs.
Proof.
  unfold os.Rename. destruct fault; [congruence|].
  destruct (os.files fs !! oldpath); [|congruence].
  destruct (bool_decide _); congruence.
Qed.

Lemma Rename_ok fs oldpath newpath fault fs' :
  os.Rename fs oldpath newpath fault = (fs', None) →
  os.files fs' !! newpath = os.files fs !! oldpath ∧ is_Some (os.files fs !! oldpath).
Proof.
  unfold os.Rename. destruct fault; [congruence|].
  destruct (os.files fs !! oldpath) as [content|] eqn:Hold; [|congruence].
  destruct (bool_decide _); [congruence|].
  intros [= <-]. simpl. rewrite lookup_insert_eq. eauto.
Qed.

(** The directory check and the write of the temporary file leave every
    other file as it was. *)
Lemma cacheStore_file_panic filePath content w f err w' :
  cacheStore_file filePath content w f = (Panicked err, w') →
  os.files (fs w') !! filePath = os.files (fs w) !! filePath.
Proof.
  unfold cacheStore_file.
  pose proof (filepath_facts.tmpFilePath_ne filePath) as Htmp.
  destruct (IsNotExist _).
  - pose proof (Mkdir_files (fs w) (filepath.Dir filePath) (mkdir_fault f)) as Hmk.
    destruct (os.Mkdir _ _ _) as [fs1 [e1|]]; simpl in *.
    + intros [= _ <-]. simpl. by rewrite Hmk.
    + pose proof (WriteFile_files_ne fs1 (tmpFilePath filePath) content
                    (writefile_fault f) filePath (not_eq_sym Htmp)) as Hwr.
      destruct (os.WriteFile _ _ _ _) as [fs2 [e2|]]; simpl in *.
      * intros [= _ <-]. simpl. by rewrite Hwr, Hmk.
      * destruct (os.Rename _ _ _ _) as [fs3 [e3|]] eqn:Hrn; [|congruence].
        apply Rename_error in Hrn as ->.
        intros [= _ <-]. simpl. by rewrite Hwr, Hmk.
  - pose proof (WriteFile_files_ne (fs w) (tmpFilePath filePath) content
                  (writefile_fault f) filePath (not_eq_sym Htmp)) as Hwr.
    destruct (os.WriteFile _ _ _ _) as [fs2 [e2|]]; simpl in *.
    + intros [= _ <-]. simpl. by rewrite Hwr.
    + destruct (os.Rename _ _ _ _) as [fs3 [e3|]] eqn:Hrn; [|congruence].
      apply Rename_error in Hrn as ->.
      intros [= _ <-]. simpl. by rewrite Hwr.
Qed.

(** C1. A write to the file cache that fails (at the directory, at
    the temporary file or at the rename) leaves the destination with
    exactly the content it had, or absent if it was absent: the bytes
    written so far are in the temporary file only. *)
Theorem cacheStore_failure_keeps_destination c cs content w f err w' :
  cache c = Some cs →
  protocol cs = cacheProtocolFile →
  cacheStore c content w f = (Panicked err, w') →
  os.files (fs w') !! index (spec cs) "file:path"
    = os.files (fs w) !! index (spec cs) "file:path".
Proof.
  intros Hc Hp. unfold cacheStore. rewrite Hc, Hp. simpl.
  apply cacheStore_file_panic.
Qed.

(** A write that returns has put the whole new content at the
    destination. *)
Lemma cacheStore_success_writes c cs content w f w' :
  cache c = Some cs →
  protocol cs = cacheProtocolFile →
  cacheStore c content w f = (Returned (), w') →
  os.files (fs w') !! index (spec cs) "file:path" = Some content.
Proof.
  intros Hc Hp. unfold cacheStore. rewrite Hc, Hp. simpl.
  unfold cacheStore_file, logPanic. set (filePath := index (spec cs) "file:path").
  assert (Hwrite : ∀ fs0 fs2,
             os.WriteFile fs0 (tmpFilePath filePath) content (writefile_fault f)
               = (fs2, None) →
             os.files fs2 !! tmpFilePath filePath = Some content).
  { intros fs0 fs2. unfold os.WriteFile.
    destruct (writefile_fault f) as [[e|e n]|]; [congruence|congruence|].
    destruct (bool_decide _); [congruence|].
    intros [= <-]. simpl. apply lookup_insert_eq. }
  destruct (IsNotExist _).
  - destruct (os.Mkdir _ _ _) as [fs1 [e1|]]; simpl; [congruence|].
    destruct (os.WriteFile _ _ _ _) as [fs2 [e2|]] eqn:Hwr; simpl; [congruence|].
    destruct (os.Rename _ _ _ _) as [fs3 [e3|]] eqn:Hrn; [congruence|].
    intros [= <-]. simpl. apply Rename_ok in Hrn as [-> _]. eauto.
  - destruct (os.WriteFile _ _ _ _) as [fs2 [e2|]] eqn:Hwr; simpl; [congruence|].
    destruct (os.Rename _ _ _ _) as [fs3 [e3|]] eqn:Hrn; [congruence|].
    intros [= <-]. simpl. apply Rename_ok in Hrn as [-> _]. eauto.
Qed.

(** C10. With the file protocol, [cacheRead] reports the cache as
    found whenever [os.Stat] gives no not-exist error, also when it
    gives another error or none; the content is whatever
    [os.ReadFile] returned, its error dropped, so a file that cannot
    be opened is found with a nil content. *)
Theorem cacheRead_file_found_without_content c cs w f :
  cache c = Some cs →
  protocol cs = cacheProtocolFile →
  IsNotExist (os.Stat (fs w) (index (spec cs) "file:path") (stat_fault f)) = false →
  cacheRead c w f
    = Returned ((os.ReadFile (fs w) (index (spec cs) "file:path")
                   (readfile_fault f)).1, true) ∧
  (∀ e, readfile_fault f = Some (os.OpenFails e) →
        cacheRead c w f = Returned (None, true)).
Proof.
  intros Hc Hp Hstat.
  assert (Hread : cacheRead c w f
            = Returned ((os.ReadFile (fs w) (index (spec cs) "file:path")
                           (readfile_fault f)).1, true)).
  { unfold cacheRead. rewrite Hc, Hp. simpl. rewrite Hstat. simpl.
    by destruct (os.ReadFile _ _ _). }
  split; [done|]. intros e He. rewrite Hread, He. unfold os.ReadFile.
  by destruct (os.files (fs w) !! _).
Qed.

(** C2, as the code has it. With the blob protocol and a client,
    [cacheRead] returns no error at all: every failure of the download
    (not found, authentication, transport, cancellation) and every
    failure to read the body gives a nil content with found false, and
    the content is found only when both calls succeed. *)
Theorem cacheRead_azblob_failure_is_not_found c cs cl w f :
  cache c = Some cs →
  protocol cs = cacheProtocolAzBlob →
  client cs = Some cl →
  let download :=
    azblob.DownloadStream (storage w) (index (spec cs) "azblob:container")
      (index (spec cs) "azblob:blob") (download_fault f) in
  (∀ err, download = inl err → cacheRead c w f = Returned (None, false)) ∧
  (∀ body err, download = inr body →
               azblob.ReadAll body (readall_fault f) = inl err →
               cacheRead c w f = Returned (None, false)) ∧
  (∀ body content, download = inr body →
                   azblob.ReadAll body (readall_fault f) = inr content →
                   cacheRead c w f = Returned (Some content, true)).
Proof.
  intros Hc Hp Hcl download. unfold cacheRead. rewrite Hc, Hp, Hcl. simpl.
  fold download. repeat split.
  - by intros err ->.
  - by intros body err -> ->.
  - by intros body content -> ->.
Qed.

End Store.

Import instance.

Lemma cacheStore_failure_keeps_destination_witness :
  let c := fileCollector "cache/metrics.json" None in
  let w := fileWorld "cache/metrics.json" oldContent in
  let w' := (cacheStore c newContent w diskFull).2 in
  (cacheStore c newContent w diskFull).1
    = Panicked (PathError "write" "cache/.metrics.json.tmp" ENOSPC) ∧
  os.files (fs w') !! "cache/metrics.json" = Some oldContent.
Proof.
  intros c w w'. split; [vm_compute; reflexivity|].
  transitivity (os.files (fs w) !! "cache/metrics.json"); [|vm_compute; reflexivity].
  set (cs := {| protocol := cacheProtocolFile; url := None; tag := None;
                raw := "cache/metrics.json";
                spec := <["file:path" := "cache/metrics.json"]> ∅; client := None |}).
  assert (Hrun : cacheStore c newContent w diskFull
                 = (Panicked (PathError "write" "cache/.metrics.json.tmp" ENOSPC), w'))
    by (vm_compute; reflexivity).
  assert (Hpath : index (spec cs) "file:path" = "cache/metrics.json")
    by (vm_compute; reflexivity).
  pose proof (cacheStore_failure_keeps_destination c cs newContent w diskFull
                _ w' eq_refl eq_refl Hrun) as Hkeep.
  rewrite Hpath in Hkeep. exact Hkeep.
Defined.

Lemma cacheRead_file_found_without_content_witness :
  cacheRead (fileCollector "cache/metrics.json" None)
    (fileWorld "cache/metrics.json" oldContent) unreadable
    = Returned (None, true).
Proof.
  set (cs := {| protocol := cacheProtocolFile; url := None; tag := None;
                raw := "cache/metrics.json";
                spec := <["file:path" := "cache/metrics.json"]> ∅; client := None |}).
  destruct (cacheRead_file_found_without_content
              (fileCollector "cache/metrics.json" None) cs
              (fileWorld "cache/metrics.json" oldContent) unreadable
              eq_refl eq_refl) as [_ Hnil].
  - vm_compute. reflexivity.
  - apply (Hnil EACCES). reflexivity.
Defined.

(** C2 fails on the code: the blob is there, the download fails with an
    authentication error, and the caller is told that nothing was found,
    exactly as for a blob that does not exist. *)
Lemma cacheRead_azblob_authentication_failure :
  download_fault unauthorized = Some AuthenticationFailed ∧
  AuthenticationFailed ≠ BlobNotFound ∧
  cacheRead (blobCollector "metrics" "snapshot.json" None)
    (blobWorld "metrics" "snapshot.json" oldContent) unauthorized
    = Returned (None, false) ∧
  cacheRead (blobCollector "metrics" "snapshot.json" None)
    emptyWorld no_faults
    = Returned (None, false).
Proof. repeat split; [discriminate|vm_compute; reflexivity..]. Qed.

Lemma cacheRead_azblob_failure_is_not_found_witness :
  cacheRead (blobCollector "metrics" "snapshot.json" None)
    (blobWorld "metrics" "snapshot.json" oldContent) unauthorized
    = Returned (None, false).
Proof.
  set (c := blobCollector "metrics" "snapshot.json" None).
  destruct (cache c) as [cs|] eqn:Hc; [|discriminate].
  destruct (client cs) as [cl|] eqn:Hcl; [|vm_compute in Hc; by simplify_eq].
  assert (Hp : protocol cs = cacheProtocolAzBlob)
    by (vm_compute in Hc; by simplify_eq).
  destruct (cacheRead_azblob_failure_is_not_found c cs cl
              (blobWorld "metrics" "snapshot.json" oldContent) unauthorized
              Hc Hp Hcl) as [Hfail _].
  apply (Hfail AuthenticationFailed). reflexivity.
Defined.

End store_facts.

(** ** Saving the snapshot *)

Module save_facts.
Import time collector.

Section Save.
Context {MetricRow MetricState : Type}.
Variable json_Marshal : CollectorData MetricRow MetricState → error + bytes.
Implicit Types (c : Collector MetricRow MetricState) (cs : cacheSpecDef).
Implicit Types (w : World) (f : Faults).

Lemma protocols_differ : String.eqb cacheProtocolAzBlob cacheProtocolFile = false.
Proof. reflexivity. Qed.

Lemma cacheStore_azblob_success c cs content w f w' :
  cache c = Some cs →
  protocol cs = cacheProtocolAzBlob →
  cacheStore c content w f = (Returned (), w') →
  storage w' !! (index (spec cs) "azblob:container", index (spec cs) "azblob:blob")
    = Some content.
Proof.
  intros Hc Hp. unfold cacheStore. rewrite Hc, Hp, protocols_differ. simpl.
  destruct (client cs); [|congruence].
  unfold azblob.UploadBuffer, logPanic. destruct (upload_fault f); [congruence|].
  intros [= <-]. simpl. apply lookup_insert_eq.
Qed.


(** C4, as the code has it. When a cache is set, the save step gives
    the live data the cycle start time as [Created], the time of the
    save plus the current sleep duration as [Expiry] and the tag of the
    cache as [Tag], and keeps the metrics; when the step returns, the
    bytes in the cache file or blob are the serialization of this
    record. *)
Theorem collectionSaveCache_record c cs sleep now w f :
  cache c = Some cs →
  sleepTime c = Some sleep →
  let '(o, c', w') := collectionSaveCache json_Marshal c now w f in
  data c' = {| Metrics := Metrics (data c);
               Created := Some (collectionStartTime c);
               Expiry := Some (Add now sleep);
               Tag := tag cs |} ∧
  (∀ jsonData, o = Returned () →
     json_Marshal (data c') = inr jsonData →
     (protocol cs = cacheProtocolFile →
      os.files (fs w') !! index (spec cs) "file:path" = Some jsonData) ∧
     (protocol cs = cacheProtocolAzBlob →
      storage w' !! (index (spec cs) "azblob:container",
                     index (spec cs) "azblob:blob") = Some jsonData)).
Proof.
  intros Hc Hs. unfold collectionSaveCache. rewrite Hc, Hs.
  set (c1 := set_data c _).
  assert (Hc1 : cache c1 = Some cs) by done.
  destruct (json_Marshal (data c1)) as [err|jsonData] eqn:Hm.
  - split; [done|]. intros jsonData _ Hm'. congruence.
  - destruct (cacheStore c1 jsonData w f) as [[u|err] w1] eqn:Hst.
    + split; [done|]. intros jsonData' _ Hm'.
      assert (jsonData' = jsonData) as -> by congruence.
      destruct u. split; intros Hp; simpl.
      * by apply (store_facts.cacheStore_success_writes c1 cs jsonData w f w1).
      * by apply (cacheStore_azblob_success c1 cs jsonData w f w1).
    + split; [done|]. intros jsonData' Ho. discriminate.
Qed.


End Save.
End save_facts.

(** ** Restoring the snapshot *)

Module restore_facts.
Import time collector.

Section Restore.
Context {MetricRow MetricState : Type}.
Variable json_Marshal : CollectorData MetricRow MetricState → error + bytes.
Variable json_Unmarshal : bytes → error + CollectorData MetricRow MetricState.
Variable Init : MetricList MetricRow MetricState → MetricList MetricRow MetricState.
Implicit Types (c : Collector MetricRow MetricState) (cs : cacheSpecDef).
Implicit Types (w : World) (f : Faults).
Implicit Types (live restored : gmap string (MetricList MetricRow MetricState)).

(** What the loop over the restored metrics leaves under each name: a
    name that is not in the live map stays out, a live list is replaced
    when the restored map has rows under its name, and is kept
    otherwise. *)
Lemma restoreMetrics_lookup live restored name :
  map_fold (restoreMetric Init) live restored !! name
  = match live !! name with
    | None => None
    | Some metricList =>
        Some match restored !! name ≫= List with
             | Some rows => Init {| List := Some rows; state := state metricList |}
             | None => metricList
             end
    end.
Proof.
  revert name.
  apply (map_fold_weak_ind
           (λ acc restored, ∀ name,
              acc !! name
              = match live !! name with
                | None => None
                | Some metricList =>
                    Some match restored !! name ≫= List with
                         | Some rows =>
                             Init {| List := Some rows; state := state metricList |}
                         | None => metricList
                         end
                end)).
  - intros name. rewrite lookup_empty. simpl. by destruct (live !! name).
  - intros i x m acc Hi IH name. unfold restoreMetric.
    destruct (decide (name = i)) as [->|Hne].
    + rewrite lookup_insert_eq. simpl.
      pose proof (IH i) as IHi. rewrite Hi in IHi. simpl in IHi.
      destruct (List x) as [rows|].
      * destruct (acc !! i) as [metricList|] eqn:Hacc.
        -- rewrite lookup_insert_eq. destruct (live !! i); by simplify_eq.
        -- rewrite Hacc. by destruct (live !! i).
      * done.
    + rewrite (lookup_insert_ne m) by done.
      destruct (List x) as [rows|]; [|apply IH].
      destruct (acc !! i); [|apply IH].
      rewrite lookup_insert_ne by done. apply IH.
Qed.

Lemma tagMismatch_false cs (restoredData : CollectorData MetricRow MetricState) :
  tagMismatch cs restoredData = false ↔
  ∀ t, tag cs = Some t → Tag restoredData = Some t.
Proof.
  unfold tagMismatch. destruct (tag cs) as [t|]; [|done].
  destruct (Tag restoredData) as [t'|].
  - rewrite negb_false_iff, String.eqb_eq. split.
    + by intros -> ? [= ->].
    + intros H. specialize (H t eq_refl). congruence.
  - split; [done|]. intros H. by specialize (H t eq_refl).
Qed.

Lemma log_logf_logf l1 m1 l2 m2 w :
  log (logf l2 m2 (logf l1 m1 w)) = (log w ++ [(l1, m1); (l2, m2)])%list.
Proof. simpl. by rewrite <- app_assoc. Qed.

(** C6. A snapshot that was read and decoded is discarded, with the
    collector untouched, the result [false] and nothing but
    information logged, when the cache has a tag and the record has
    none or another one, and also, whatever the tags, when the record
    has no expiry or one that is not after the clock reading. The
    result is [true] only for a record that passes both checks, and the
    collector changes only then. *)
Theorem collectionRestoreCache_checks c cs content restoredData now1 now2 w f :
  cache c = Some cs →
  cacheRead c w f = Returned (content, true) →
  json_Unmarshal (default [] content) = inr restoredData →
  let '(o, c', w') := collectionRestoreCache json_Unmarshal Init c now1 now2 w f in
  (∀ t, tag cs = Some t → Tag restoredData ≠ Some t →
     o = Returned false ∧ c' = c ∧
     log w' = (log w ++ [(InfoLevel, msgRestoring (raw cs));
                         (InfoLevel, msgTagMismatch)])%list) ∧
  ((∀ expiry, Expiry restoredData = Some expiry → expiry ≤ now1) →
     o = Returned false ∧ c' = c ∧
     ∃ m, log w' = (log w ++ [(InfoLevel, msgRestoring (raw cs));
                              (InfoLevel, m)])%list) ∧
  (o = Returned true →
     (∀ t, tag cs = Some t → Tag restoredData = Some t) ∧
     ∃ expiry, Expiry restoredData = Some expiry ∧ now1 < expiry) ∧
  (o ≠ Returned true → c' = c).
Proof.
  intros Hc Hread Hdec. unfold collectionRestoreCache.
  rewrite Hc, Hread, Hdec.
  destruct (tagMismatch cs restoredData) eqn:Htag.
  - split; [|split; [|split]].
    + intros t Ht Hne. by rewrite log_logf_logf.
    + intros _. rewrite log_logf_logf. eauto.
    + done.
    + done.
  - pose proof (proj1 (tagMismatch_false cs restoredData) Htag) as Hok.
    destruct (Expiry restoredData) as [expiry|] eqn:Hexp.
    + unfold After. destruct (now1 <? expiry) eqn:Hlt.
      * apply Z.ltb_lt in Hlt.
        destruct (restoreData Init c cs restoredData expiry now2 _) as [c' w2].
        split; [|split; [|split]].
        -- intros t Ht Hne. exfalso. apply Hne. by apply Hok.
        -- intros Hold. specialize (Hold expiry eq_refl). lia.
        -- intros _. eauto.
        -- done.
      * split; [|split; [|split]].
        -- intros t Ht Hne. exfalso. apply Hne. by apply Hok.
        -- intros _. rewrite log_logf_logf. eauto.
        -- done.
        -- done.
    + split; [|split; [|split]].
      * intros t Ht Hne. exfalso. apply Hne. by apply Hok.
      * intros _. rewrite log_logf_logf. eauto.
      * done.
      * done.
Qed.

Lemma wrap64_small z : minDuration ≤ z ≤ maxDuration → wrap64 z = z.
Proof.
  unfold minDuration, maxDuration, wrap64. intros H.
  rewrite Z.mod_small; lia.
Qed.

(** A snapshot that expires beyond the range of a duration: the
    saturated difference plus one minute wraps to a negative sleep. *)
Example sleep_candidate_wraps :
  dadd (Until (2 ^ 63) 0) (dmul 1 Minute) = Minute - 1 - 2 ^ 63.
Proof. reflexivity. Qed.

Lemma restoreData_sleepTime c cs restoredData expiry now w :
  sleepTime (restoreData Init c cs restoredData expiry now w).1
  = match scrapeTime c with
    | Some scrape =>
        if dadd (Until expiry now) (dmul 1 Minute) <? scrape
        then Some (dadd (Until expiry now) (dmul 1 Minute))
        else sleepTime c
    | None => sleepTime c
    end.
Proof.
  unfold restoreData. simpl.
  destruct (Created restoredData); simpl;
    destruct (scrapeTime c) as [scrape|]; simpl; try done;
    by destruct (_ <? scrape).
Qed.

(** C7, as the code has it. For an accepted snapshot the candidate
    sleep is the time from the second clock reading to the expiry plus
    one minute, in [int64] arithmetic and without a floor at zero. It
    becomes the next sleep duration when a scrape time is set and the
    candidate is strictly below it; otherwise the sleep duration stays
    as it was. A sleep duration that did not exceed the scrape time
    before the restore does not exceed it afterwards. *)
Theorem collectionRestoreCache_sleep c cs content restoredData expiry now1 now2 w f :
  cache c = Some cs →
  cacheRead c w f = Returned (content, true) →
  json_Unmarshal (default [] content) = inr restoredData →
  (∀ t, tag cs = Some t → Tag restoredData = Some t) →
  Expiry restoredData = Some expiry →
  now1 < expiry →
  let '(o, c', w') := collectionRestoreCache json_Unmarshal Init c now1 now2 w f in
  let candidate := dadd (Until expiry now2) (dmul 1 Minute) in
  o = Returned true ∧
  sleepTime c' = match scrapeTime c with
                 | Some scrape =>
                     if candidate <? scrape then Some candidate else sleepTime c
                 | None => sleepTime c
                 end ∧
  (minDuration ≤ expiry - now2 → expiry - now2 + Minute ≤ maxDuration →
     candidate = expiry - now2 + Minute) ∧
  (∀ scrape s', scrapeTime c = Some scrape →
     (∀ s, sleepTime c = Some s → s ≤ scrape) →
     sleepTime c' = Some s' → s' ≤ scrape).
Proof.
  intros Hc Hread Hdec Htag Hexp Hfuture. unfold collectionRestoreCache.
  rewrite Hc, Hread, Hdec, (proj2 (tagMismatch_false cs restoredData) Htag), Hexp.
  unfold After. rewrite (proj2 (Z.ltb_lt now1 expiry) Hfuture).
  pose proof (restoreData_sleepTime c cs restoredData expiry now2
                (logf InfoLevel (msgRestoring (raw cs)) w)) as Hsleep.
  destruct (restoreData Init c cs restoredData expiry now2 _) as [c' w2].
  simpl in Hsleep. split; [done|]. split; [done|]. split.
  - intros Hlo Hhi. unfold dadd, dmul, Until, Sub.
    assert (Hmin : wrap64 (1 * Minute) = Minute) by reflexivity.
    rewrite Hmin.
    assert (0 < Minute) by reflexivity.
    destruct (maxDuration <? expiry - now2) eqn:H1; [apply Z.ltb_lt in H1; lia|].
    destruct (expiry - now2 <? minDuration) eqn:H2; [apply Z.ltb_lt in H2; lia|].
    apply wrap64_small. unfold minDuration, maxDuration in *. lia.
  - intros scrape s' Hscrape Hprior. rewrite Hsleep, Hscrape.
    destruct (_ <? scrape) eqn:Hlt.
    + intros [= <-]. apply Z.ltb_lt in Hlt. lia.
    + apply Hprior.
Qed.

Lemma cacheRead_file_present c cs content w :
  cache c = Some cs →
  protocol cs = cacheProtocolFile →
  os.files (fs w) !! index (spec cs) "file:path" = Some content →
  cacheRead c w no_faults = Returned (Some content, true).
Proof.
  intros Hc Hp Hfile. unfold cacheRead. rewrite Hc, Hp. simpl.
  unfold os.Stat, os.exists_, os.ReadFile. by rewrite Hfile.
Qed.

Lemma cacheRead_azblob_present c cs content w :
  cache c = Some cs →
  protocol cs = cacheProtocolAzBlob →
  client cs ≠ None →
  storage w !! (index (spec cs) "azblob:container", index (spec cs) "azblob:blob")
    = Some content →
  cacheRead c w no_faults = Returned (Some content, true).
Proof.
  intros Hc Hp Hcl Hblob. unfold cacheRead.
  rewrite Hc, Hp, save_facts.protocols_differ. simpl.
  destruct (client cs); [|done].
  unfold azblob.DownloadStream. simpl. by rewrite Hblob.
Qed.

(** What was stored is what a read without faults finds. *)
Lemma cacheRead_after_cacheStore c c0 cs content w f w' :
  cache c = Some cs →
  cache c0 = Some cs →
  protocol cs = cacheProtocolFile ∨ protocol cs = cacheProtocolAzBlob →
  cacheStore c content w f = (Returned (), w') →
  ∀ lvl m, cacheRead c0 (logf lvl m w') no_faults = Returned (Some content, true).
Proof.
  intros Hc Hc0 [Hp|Hp] Hst lvl m.
  - apply (cacheRead_file_present c0 cs); [done..|]. simpl.
    by apply (store_facts.cacheStore_success_writes c cs content w f).
  - apply (cacheRead_azblob_present c0 cs); [done..| |].
    + unfold cacheStore in Hst. rewrite Hc, Hp, save_facts.protocols_differ in Hst.
      simpl in Hst. by destruct (client cs).
    + simpl. by apply (save_facts.cacheStore_azblob_success c cs content w f).
Qed.

Lemma restoreData_Metrics c cs restoredData expiry now w :
  Metrics (data (restoreData Init c cs restoredData expiry now w).1)
  = map_fold (restoreMetric Init) (Metrics (data c)) (Metrics restoredData).
Proof.
  unfold restoreData. simpl.
  destruct (Created restoredData); simpl;
    destruct (scrapeTime c) as [scrape|]; simpl; try done;
    by destruct (_ <? scrape).
Qed.

(** C9, as the code has it. A snapshot is saved by [c] and restored,
    with the same cache and before its expiry, into [c0]. Then the
    restore is accepted and changes the lists of [c0] name by name: a
    name that [c0] does not have is not added; a list of [c0] whose
    name has rows in the saved state has exactly these rows; every
    other list of [c0] is as before. So the lists of [c0] are those of
    [c] when both have the same names and no saved list is nil. *)
Theorem save_restore_roundtrip c c0 cs sleep now now1 now2 w f c1 w1 jsonData :
  cache c = Some cs →
  cache c0 = Some cs →
  protocol cs = cacheProtocolFile ∨ protocol cs = cacheProtocolAzBlob →
  sleepTime c = Some sleep →
  (∀ m rows, List m = Some rows → List (Init m) = Some rows) →
  collectionSaveCache json_Marshal c now w f = (Returned (), c1, w1) →
  json_Marshal (data c1) = inr jsonData →
  json_Unmarshal jsonData = inr (data c1) →
  now1 < Add now sleep →
  let '(o, c0', w2) :=
    collectionRestoreCache json_Unmarshal Init c0 now1 now2 w1 no_faults in
  o = Returned true ∧
  (∀ name, Metrics (data c0) !! name = None → Metrics (data c0') !! name = None) ∧
  (∀ name metricList, Metrics (data c0) !! name = Some metricList →
     ∃ metricList',
       Metrics (data c0') !! name = Some metricList' ∧
       List metricList' = match Metrics (data c) !! name ≫= List with
                          | Some rows => Some rows
                          | None => List metricList
                          end) ∧
  ((∀ name, is_Some (Metrics (data c0) !! name) ↔ is_Some (Metrics (data c) !! name)) →
   (∀ name metricList, Metrics (data c) !! name = Some metricList →
                       List metricList ≠ None) →
   ∀ name, List <$> Metrics (data c0') !! name = List <$> Metrics (data c) !! name).
Proof.
  intros Hc Hc0 Hproto Hs HInit Hsave Hm Hdec Hfuture.
  unfold collectionSaveCache in Hsave. rewrite Hc, Hs in Hsave.
  set (saved := set_data c _) in Hsave.
  assert (c1 = saved ∧
          cacheRead c0 w1 no_faults = Returned (Some jsonData, true)) as [-> Hread1].
  { destruct (json_Marshal (data saved)) as [err|b] eqn:Hm1.
    - injection Hsave as <- _. congruence.
    - destruct (cacheStore saved b w f) as [[[]|err] w1'] eqn:Hst; [|done].
      injection Hsave as <- <-. split; [done|].
      assert (b = jsonData) as -> by congruence.
      by apply (cacheRead_after_cacheStore saved c0 cs jsonData w f w1'). }
  unfold collectionRestoreCache. rewrite Hc0, Hread1. simpl default. rewrite Hdec.
  assert (Htag : tagMismatch cs (data saved) = false).
  { apply tagMismatch_false. by intros t Ht. }
  rewrite Htag. simpl Expiry. unfold After.
  rewrite (proj2 (Z.ltb_lt now1 (Add now sleep)) Hfuture).
  pose proof (restoreData_Metrics c0 cs (data saved) (Add now sleep) now2
                (logf InfoLevel (msgRestoring (raw cs)) w1)) as HM.
  destruct (restoreData Init c0 cs (data saved) (Add now sleep) now2 _) as [c0' w2].
  simpl in HM.
  assert (Hlookup : ∀ name,
             Metrics (data c0') !! name
             = match Metrics (data c0) !! name with
               | None => None
               | Some metricList =>
                   Some match Metrics (data c) !! name ≫= List with
                        | Some rows =>
                            Init {| List := Some rows; state := state metricList |}
                        | None => metricList
                        end
               end).
  { intros name. rewrite HM. apply restoreMetrics_lookup. }
  split; [done|]. split; [|split].
  - intros name Hnone. by rewrite Hlookup, Hnone.
  - intros name metricList Hsome. rewrite Hlookup, Hsome. eexists. split; [done|].
    destruct (Metrics (data c) !! name ≫= List) as [rows|]; [|done].
    by apply HInit.
  - intros Hdom Hrows name. rewrite Hlookup.
    destruct (Metrics (data c0) !! name) as [metricList|] eqn:Hlive.
    + destruct (proj1 (Hdom name)) as [m Hm0]; [by rewrite Hlive|].
      rewrite Hm0. simpl.
      destruct (List m) as [rows|] eqn:Hl; [|by apply Hrows in Hm0].
      f_equal. by apply HInit.
    + destruct (Metrics (data c) !! name) as [m|] eqn:Hm0; [|done].
      destruct (proj2 (Hdom name)) as [? ?]; [by rewrite Hm0|]. congruence.
Qed.

End Restore.
End restore_facts.

(** ** The theorems at work on the concrete instance *)

Module examples.
Import time collector instance.

Definition fileSpec (cacheTag : option string) : cacheSpecDef :=
  {| protocol := cacheProtocolFile; url := None; tag := cacheTag; raw := cachePath;
     spec := <["file:path" := cachePath]> ∅; client := None |}.

Example savedWorld_file : os.files (fs savedWorld) !! cachePath = Some savedBytes.
Proof. vm_compute. reflexivity. Qed.

Example Unmarshal_savedBytes : Unmarshal savedBytes = inr savedRecord.
Proof. vm_compute. reflexivity. Qed.

(** C4 fails on the code: the cycle started at second 100 and the scrape
    time is 600 seconds, but the save at second 130 sets the expiry to
    second 730, not to second 700. *)
Lemma collectionSaveCache_expiry_from_save_time :
  let c' := (collectionSaveCache Marshal savingCollector (130 * Second)
               (fileWorld cachePath oldContent) no_faults).1.2 in
  collectionStartTime savingCollector = 100 * Second ∧
  scrapeTime savingCollector = Some (600 * Second) ∧
  Expiry (data c') = Some (730 * Second) ∧
  Expiry (data c') ≠ Some (Add (collectionStartTime savingCollector) (600 * Second)).
Proof. repeat split; try (vm_compute; reflexivity). vm_compute. discriminate. Qed.

Lemma collectionSaveCache_record_witness :
  let '(o, c', w') :=
    collectionSaveCache Marshal savingCollector (130 * Second)
      (fileWorld cachePath oldContent) no_faults in
  data c' = {| Metrics := Metrics (data savingCollector);
               Created := Some (collectionStartTime savingCollector);
               Expiry := Some (Add (130 * Second) (600 * Second));
               Tag := tag (fileSpec (Some "v2")) |} ∧
  (∀ jsonData, o = Returned () →
     Marshal (data c') = inr jsonData →
     (protocol (fileSpec (Some "v2")) = cacheProtocolFile →
      os.files (fs w') !! index (spec (fileSpec (Some "v2"))) "file:path"
        = Some jsonData) ∧
     (protocol (fileSpec (Some "v2")) = cacheProtocolAzBlob →
      storage w' !! (index (spec (fileSpec (Some "v2"))) "azblob:container",
                     index (spec (fileSpec (Some "v2"))) "azblob:blob")
        = Some jsonData)).
Proof.
  exact (save_facts.collectionSaveCache_record Marshal savingCollector
           (fileSpec (Some "v2")) (600 * Second) (130 * Second)
           (fileWorld cachePath oldContent) no_faults eq_refl eq_refl).
Defined.



Example cacheRead_savedWorld cacheTag metrics :
  cacheRead (startedCollector metrics cacheTag) savedWorld no_faults
  = Returned (Some savedBytes, true).
Proof. vm_compute. reflexivity. Qed.

(** A collector with the tag [v3] meets the snapshot saved under [v2]. *)
Lemma collectionRestoreCache_checks_witness :
  let c := startedCollector {["requests" := placeholder]} (Some "v3") in
  let r := collectionRestoreCache Unmarshal Init c (131 * Second) (131 * Second)
             savedWorld no_faults in
  r.1.1 = Returned false ∧ r.1.2 = c.
Proof.
  intros c r.
  pose proof (restore_facts.collectionRestoreCache_checks Unmarshal Init c
                (fileSpec (Some "v3")) (Some savedBytes) savedRecord
                (131 * Second) (131 * Second) savedWorld no_faults eq_refl
                (cacheRead_savedWorld _ _) Unmarshal_savedBytes) as H.
  fold r in H. destruct r as [[o c'] w']. destruct H as [Htag _].
  destruct (Htag "v3" eq_refl) as (Ho & Hc' & _); [discriminate|]. done.
Defined.

(** C7 fails on the code: the snapshot expires at second 730 and is
    accepted at second 729; the clock reads second 731 when the sleep is
    computed. The next sleep is 59 seconds, where a floor at zero gives
    60 seconds (and 61 seconds with the first reading of the clock). *)
Lemma collectionRestoreCache_sleep_without_floor :
  let c := startedCollector {["requests" := placeholder]} (Some "v2") in
  let r := collectionRestoreCache Unmarshal Init c (729 * Second) (731 * Second)
             savedWorld no_faults in
  r.1.1 = Returned true ∧
  scrapeTime c = Some (600 * Second) ∧
  sleepTime r.1.2 = Some (59 * Second) ∧
  Z.min (Z.max 0 (730 * Second - 731 * Second) + Minute) (600 * Second) = 60 * Second ∧
  Z.min (Z.max 0 (730 * Second - 729 * Second) + Minute) (600 * Second) = 61 * Second.
Proof. repeat split; vm_compute; reflexivity. Qed.

(** Eight minutes are left of the snapshot: the next sleep is nine
    minutes, below the scrape time of ten. *)
Lemma collectionRestoreCache_sleep_witness :
  let c := startedCollector {["requests" := placeholder]} (Some "v2") in
  let r := collectionRestoreCache Unmarshal Init c (250 * Second) (250 * Second)
             savedWorld no_faults in
  r.1.1 = Returned true ∧ sleepTime r.1.2 = Some (540 * Second).
Proof.
  intros c r.
  pose proof (restore_facts.collectionRestoreCache_sleep Unmarshal Init c
                (fileSpec (Some "v2")) (Some savedBytes) savedRecord (730 * Second)
                (250 * Second) (250 * Second) savedWorld no_faults eq_refl
                (cacheRead_savedWorld _ _) Unmarshal_savedBytes) as H.
  fold r in H. destruct r as [[o c'] w'].
  destruct H as (Ho & Hsleep & _).
  - intros t [= <-]. reflexivity.
  - reflexivity.
  - reflexivity.
  - split; [exact Ho|]. simpl. rewrite Hsleep. vm_compute. reflexivity.
Defined.

(** The restore can lengthen a wait that is below the scrape time: the
    collector is to sleep 100 seconds, 400 seconds are left of the
    snapshot, and the next sleep is 460 seconds, below the scrape time of
    600 seconds. *)
Example collectionRestoreCache_sleep_longer :
  let c := SetNextSleepDuration
             (startedCollector {["requests" := placeholder]} (Some "v2"))
             (100 * Second) in
  let r := collectionRestoreCache Unmarshal Init c (330 * Second) (330 * Second)
             savedWorld no_faults in
  sleepTime c = Some (100 * Second) ∧
  scrapeTime c = Some (600 * Second) ∧
  r.1.1 = Returned true ∧
  sleepTime r.1.2 = Some (460 * Second).
Proof. repeat split; vm_compute; reflexivity. Qed.

(** C9 fails on the code: the saved state has rows under [requests], the
    collector that restores it has no metric of that name, and after the
    accepted restore it still has none. *)
Lemma save_restore_unregistered_metric :
  let c0 := startedCollector ∅ (Some "v2") in
  let r := collectionRestoreCache Unmarshal Init c0 (131 * Second) (131 * Second)
             savedWorld no_faults in
  List <$> Metrics (data savingCollector) !! "requests" = Some (Some [1; 2; 3]) ∧
  r.1.1 = Returned true ∧
  Metrics (data r.1.2) !! "requests" = None.
Proof. repeat split; vm_compute; reflexivity. Qed.

(** The same snapshot restored into a collector that has the metric. *)
Lemma save_restore_roundtrip_witness :
  let c0 := startedCollector {["requests" := placeholder]} (Some "v2") in
  let r := collectionRestoreCache Unmarshal Init c0 (131 * Second) (131 * Second)
             savedWorld no_faults in
  r.1.1 = Returned true ∧
  ∃ metricList',
    Metrics (data r.1.2) !! "requests" = Some metricList' ∧
    List metricList' = Some [1; 2; 3].
Proof.
  intros c0 r.
  pose proof (restore_facts.save_restore_roundtrip Marshal Unmarshal Init
                savingCollector c0 (fileSpec (Some "v2")) (600 * Second)
                (130 * Second) (131 * Second) (131 * Second)
                (fileWorld cachePath oldContent) no_faults
                (set_data savingCollector savedRecord) savedWorld savedBytes
                eq_refl eq_refl (or_introl eq_refl) eq_refl) as H.
  fold r in H. destruct r as [[o c0'] w2].
  destruct H as (Ho & _ & Hrows & _).
  - intros m rows Hm. exact Hm.
  - vm_compute. reflexivity.
  - vm_compute. reflexivity.
  - vm_compute. reflexivity.
  - reflexivity.
  - split; [exact Ho|]. apply (Hrows "requests" placeholder). reflexivity.
Defined.

End examples.


(** ** More on the discovery cache *)

Module armclient_more_facts.
Import time armclient armclient_setup.

Lemma UnixNano_small z : minDuration ≤ z ≤ maxDuration → UnixNano z = z.
Proof.
  unfold UnixNano, minDuration, maxDuration, wrap64. intros H.
  rewrite Z.mod_small; lia.
Qed.

Lemma Get_Set_fresh c now' k x d t :
  fresh c now' d t → Get (Set_ c now' k x d) t k = (x, true).
Proof.
  unfold fresh, Get, Set_. simpl. rewrite lookup_insert_eq. simpl.
  set (d' := if d =? DefaultExpiration then defaultExpiration c else d).
  intros [Hd|(Ht & Hle & Hmax)].
  - destruct (0 <? d') eqn:H0; [apply Z.ltb_lt in H0; lia|]. done.
  - destruct (0 <? d') eqn:H0; [|done]. apply Z.ltb_lt in H0.
    unfold Add. rewrite !UnixNano_small by (unfold minDuration, maxDuration in *; lia).
    destruct (0 <? now' + d'); simpl; [|done].
    destruct (now' + d' <? t) eqn:Hlt; [apply Z.ltb_lt in Hlt; lia|done].
Qed.

Lemma Get_Set_lapsed c now' k x d t :
  lapsed c now' d t → Get (Set_ c now' k x d) t k = (anyNil, false).
Proof.
  unfold lapsed, Get, Set_. simpl. rewrite lookup_insert_eq. simpl.
  set (d' := if d =? DefaultExpiration then defaultExpiration c else d).
  intros (Hd & Hpos & Hlt & Hmax).
  rewrite (proj2 (Z.ltb_lt 0 d') Hd). unfold Add.
  rewrite !UnixNano_small by (unfold minDuration, maxDuration in *; lia).
  rewrite (proj2 (Z.ltb_lt 0 (now' + d')) Hpos).
  by rewrite (proj2 (Z.ltb_lt (now' + d') t) Hlt).
Qed.

Lemma Get_Set_ne c now' k k' x d t :
  k ≠ k' → Get (Set_ c now' k x d) t k' = Get c t k'.
Proof. intros Hne. unfold Get, Set_. simpl. by rewrite lookup_insert_ne. Qed.

(** X1. After a miss whose callback succeeded, every call for the same
    identifier while the entry is fresh returns the stored result without
    an error and without running its callback: the world and the client
    stay as they are. *)
Theorem cacheData_serves_from_cache {World} (azureClient : ArmClient) now now' t t'
    identifier (callback callback2 : World → (any * option error) * World)
    w result w' w2 :
  snd (Get (cache azureClient) now identifier) = false →
  callback w = ((result, None), w') →
  fresh (cache azureClient) now' DefaultExpiration t →
  let azureClient1 := (cacheData azureClient now now' identifier callback w).1.2 in
  cacheData azureClient1 t t' identifier callback2 w2
  = ((result, None), azureClient1, w2).
Proof.
  intros Hmiss Hcb Hfresh azureClient1.
  assert (Hc : cache azureClient1
               = SetDefault (cache azureClient) now' identifier result).
  { unfold azureClient1, cacheData.
    destruct (Get (cache azureClient) now identifier) as [v found].
    simpl in Hmiss. subst found. by rewrite Hcb. }
  unfold cacheData at 1. rewrite Hc. unfold SetDefault.
  by rewrite Get_Set_fresh.
Qed.

Lemma cacheData_serves_from_cache_witness :
  let cb := λ n : nat, ((anyOther "tenant", None), S n) in
  let azureClient1 := (cacheData NewArmClient 0 0 "tenant" cb 0%nat).1.2 in
  cacheData azureClient1 (30 * Minute) (30 * Minute) "tenant" cb 7%nat
  = ((anyOther "tenant", None), azureClient1, 7%nat).
Proof.
  intros cb azureClient1.
  apply (cacheData_serves_from_cache NewArmClient 0 0 (30 * Minute) (30 * Minute)
           "tenant" cb cb 0%nat (anyOther "tenant") 1%nat 7%nat).
  - reflexivity.
  - reflexivity.
  - right. vm_compute. repeat split; discriminate.
Defined.

(** X2. Once the entry has lapsed, a call for the identifier runs its
    callback again and returns what that one gives. *)
Theorem cacheData_recomputes_after_expiry {World} (azureClient : ArmClient) now now' t t'
    identifier (callback callback2 : World → (any * option error) * World)
    w result w' w2 :
  snd (Get (cache azureClient) now identifier) = false →
  callback w = ((result, None), w') →
  lapsed (cache azureClient) now' DefaultExpiration t →
  let azureClient1 := (cacheData azureClient now now' identifier callback w).1.2 in
  (cacheData azureClient1 t t' identifier callback2 w2).1.1 = (callback2 w2).1 ∧
  (cacheData azureClient1 t t' identifier callback2 w2).2 = (callback2 w2).2.
Proof.
  intros Hmiss Hcb Hlapsed azureClient1.
  assert (Hc : cache azureClient1
               = SetDefault (cache azureClient) now' identifier result).
  { unfold azureClient1, cacheData.
    destruct (Get (cache azureClient) now identifier) as [v found].
    simpl in Hmiss. subst found. by rewrite Hcb. }
  unfold cacheData at 1 2. rewrite Hc. unfold SetDefault.
  rewrite Get_Set_lapsed by done.
  by destruct (callback2 w2) as [[r e] w3].
Qed.

Lemma cacheData_recomputes_after_expiry_witness :
  let cb := λ n : nat, ((anyOther "tenant", None), S n) in
  let azureClient1 := (cacheData NewArmClient 0 0 "tenant" cb 0%nat).1.2 in
  (cacheData azureClient1 (61 * Minute) (61 * Minute) "tenant" cb 7%nat).2 = 8%nat.
Proof.
  intros cb azureClient1.
  apply (cacheData_recomputes_after_expiry NewArmClient 0 0 (61 * Minute) (61 * Minute)
           "tenant" cb cb 0%nat (anyOther "tenant") 1%nat 7%nat).
  - reflexivity.
  - reflexivity.
  - vm_compute. repeat split; try reflexivity; discriminate.
Defined.

(** X3. [cacheData] does not look at the time to live of the client:
    whatever [SetCacheTtl] was given, the result, the world and the cache
    are the same, and a stored entry lapses by the default expiration of
    the cache. On a hit or after an error of the callback the cache is as
    it was. *)
Theorem cacheData_ignores_cacheTtl {World} (azureClient : ArmClient) ttl now now'
    identifier (callback : World → (any * option error) * World) w :
  let r := cacheData azureClient now now' identifier callback w in
  let r' := cacheData (SetCacheTtl azureClient ttl) now now' identifier callback w in
  r'.1.1 = r.1.1 ∧ r'.2 = r.2 ∧ cache r'.1.2 = cache r.1.2 ∧
  cacheTtl r'.1.2 = ttl ∧
  (snd (Get (cache azureClient) now identifier) = false →
   snd r.1.1 = None →
   cache r.1.2 = Set_ (cache azureClient) now' identifier (fst r.1.1)
                   (defaultExpiration (cache azureClient))) ∧
  (snd (Get (cache azureClient) now identifier) = true ∨ snd r.1.1 ≠ None →
   cache r.1.2 = cache azureClient).
Proof.
  intros r r'. unfold r, r', cacheData, SetCacheTtl. simpl.
  destruct (Get (cache azureClient) now identifier) as [v [|]]; simpl.
  - repeat split; try done.
  - destruct (callback w) as [[result [e|]] w']; simpl.
    + repeat split; try done.
    + split; [done|]. split; [done|]. split; [done|]. split; [done|]. split.
      * intros _ _.
        unfold SetDefault, Set_, DefaultExpiration. simpl.
        destruct (defaultExpiration (cache azureClient) =? 0) eqn:H0; [|done].
        apply Z.eqb_eq in H0. by rewrite H0.
      * by intros [?|?].
Qed.

(** The pages put into the map one group after the other. *)
Lemma listPages_ok StringLower ps list :
  allPagesOk ps →
  listPages StringLower ps list
  = (Some (fold_left (λ l resourceGroup,
                        <[StringLower (rgName resourceGroup) := resourceGroup]> l)
                     (allGroups ps) list), None).
Proof.
  revert list. induction ps as [|[e|[value|]] ps IH]; intros list Hok.
  - done.
  - by inversion Hok.
  - inversion Hok; subst. simpl. rewrite IH by done.
    unfold allGroups. simpl. by rewrite fold_left_app.
  - inversion Hok; subst. simpl. by rewrite IH.
Qed.

Lemma listPages_first_error StringLower good err rest list :
  allPagesOk good →
  listPages StringLower (good ++ inl err :: rest) list = (None, Some err).
Proof.
  revert list. induction good as [|[e|[value|]] good IH]; intros list Hok.
  - done.
  - by inversion Hok.
  - inversion Hok; subst. simpl. by apply IH.
  - inversion Hok; subst. simpl. by apply IH.
Qed.

(** X4. [ListResourceGroups] asks for the credential first. It panics
    exactly when the client holds no credential and none can be made, with
    the error of making it. When [GetCred] returns, the call returns with
    the credential kept in the client, and it fails exactly when the
    resource groups client cannot be made or a page fails: it then returns
    a nil map with the error of the client, or else of the first page that
    fails, and asks for no page after that one. When no page fails it
    returns a map and no error. *)
Theorem ListResourceGroups_first_error {TokenCredential} StringLower
    (cred : option TokenCredential) NewAzDefaultCredential api :
  (∀ err,
     armclient_cred.ListResourceGroups StringLower cred NewAzDefaultCredential api
     = Panicked err
     ↔ cred = None ∧ NewAzDefaultCredential = inl err) ∧
  (∀ c cred',
     armclient_cred.GetCred cred NewAzDefaultCredential = Returned (c, cred') →
     ∃ r,
       armclient_cred.ListResourceGroups StringLower cred NewAzDefaultCredential api
       = Returned (r, Some c) ∧
       (∀ err, newClientError api = Some err → r = (None, Some err)) ∧
       (∀ good err rest rest',
          newClientError api = None → allPagesOk good →
          pages api = (good ++ inl err :: rest)%list →
          r = (None, Some err) ∧
          armclient_cred.ListResourceGroups StringLower cred NewAzDefaultCredential
            {| newClientError := None; pages := (good ++ inl err :: rest')%list |}
          = Returned ((None, Some err), Some c)) ∧
       (newClientError api = None → allPagesOk (pages api) →
          ∃ list, r = (Some list, None))).
Proof.
  unfold armclient_cred.ListResourceGroups, armclient_cred.GetCred. split.
  - intros err. destruct cred as [c|]; [|destruct NewAzDefaultCredential as [e|c]].
    + split; [discriminate|]. by intros [? _].
    + split; [by intros [= ->]|]. by intros [_ [= ->]].
    + split; [discriminate|]. by intros [_ ?].
  - intros c cred' Hcred.
    assert (Hc : cred' = Some c).
    { destruct cred as [c0|]; [|destruct NewAzDefaultCredential as [e|c0]];
        congruence. }
    subst cred'.
    exists (ListResourceGroups StringLower api).
    destruct cred as [c0|]; [|destruct NewAzDefaultCredential as [e|c0]];
      try discriminate; injection Hcred as ->;
      (split; [done|]); unfold ListResourceGroups; (split; [|split]).
    all: try by intros err ->.
    all: try (intros good err rest rest' -> Hok ->; simpl;
              by rewrite !listPages_first_error).
    all: intros -> Hok; rewrite listPages_ok by done; eauto.
Qed.

Section Keys.
Variable StringLower : option string → string.

Let key (resourceGroup : ResourceGroup) : string := StringLower (rgName resourceGroup).
Let put (l : gmap string ResourceGroup) (resourceGroup : ResourceGroup) :=
  <[key resourceGroup := resourceGroup]> l.

(** Every entry of the map is a listed group under its own key. *)
Lemma fold_put_sound groups list k resourceGroup :
  (∀ k' g, list !! k' = Some g → key g = k' ∧ g ∈ groups) →
  fold_left put groups list !! k = Some resourceGroup →
  key resourceGroup = k ∧ resourceGroup ∈ groups.
Proof.
  intros Hlist.
  assert (Hgen : ∀ todo list0,
             (∀ k' g, list0 !! k' = Some g → key g = k' ∧ g ∈ groups) →
             (∀ g, g ∈ todo → g ∈ groups) →
             fold_left put todo list0 !! k = Some resourceGroup →
             key resourceGroup = k ∧ resourceGroup ∈ groups).
  { induction todo as [|g todo IH]; intros list0 Hinv Hsub; simpl.
    - apply Hinv.
    - apply IH.
      + intros k' g'. unfold put. destruct (decide (key g = k')) as [<-|Hne].
        * rewrite lookup_insert_eq. intros [= <-]. split; [done|].
          apply Hsub. by left.
        * rewrite lookup_insert_ne by done. apply Hinv.
      + intros g' Hg'. apply Hsub. by right. }
  by apply (Hgen groups list).
Qed.

(** Every listed group has an entry under its key, held by a listed group
    of the same key. *)
Lemma fold_put_complete groups list resourceGroup :
  resourceGroup ∈ groups →
  ∃ g, fold_left put groups list !! key resourceGroup = Some g ∧
       key g = key resourceGroup.
Proof.
  assert (Hkeep : ∀ todo list0 k g0,
             list0 !! k = Some g0 → key g0 = k →
             ∃ g, fold_left put todo list0 !! k = Some g ∧ key g = k).
  { induction todo as [|g todo IH]; intros list0 k g0 Hk Hkey; simpl; [eauto|].
    destruct (decide (key g = k)) as [<-|Hne].
    - apply (IH _ _ g); [apply lookup_insert_eq|done].
    - apply (IH _ _ g0); [|done]. unfold put. by rewrite lookup_insert_ne. }
  revert list. induction groups as [|g groups IH]; intros list Hin.
  - by apply elem_of_nil in Hin.
  - apply elem_of_cons in Hin as [->|Hin]; simpl.
    + apply (Hkeep _ _ _ g); [apply lookup_insert_eq|done].
    + by apply IH.
Qed.

(** X5. When no page fails, the map [ListResourceGroups] returns is keyed
    by the lower-cased names: every entry is a listed resource group under
    its own lower-cased name, and every listed resource group has an entry
    under its lower-cased name, held by a listed group with the same
    lower-cased name. *)
Theorem ListResourceGroups_keys api :
  newClientError api = None →
  allPagesOk (pages api) →
  ∃ list,
    ListResourceGroups StringLower api = (Some list, None) ∧
    (∀ k resourceGroup, list !! k = Some resourceGroup →
       StringLower (rgName resourceGroup) = k ∧
       resourceGroup ∈ allGroups (pages api)) ∧
    (∀ resourceGroup, resourceGroup ∈ allGroups (pages api) →
       ∃ g, list !! StringLower (rgName resourceGroup) = Some g ∧
            StringLower (rgName g) = StringLower (rgName resourceGroup)).
Proof.
  intros Hc Hok. unfold ListResourceGroups. rewrite Hc, listPages_ok by done.
  eexists. split; [done|]. split.
  - intros k resourceGroup. apply fold_put_sound. intros k' g.
    by rewrite lookup_empty.
  - intros resourceGroup. apply fold_put_complete.
Qed.

End Keys.

(** A client without a credential: none can be made, or one is made and
    the second page fails. *)
Lemma ListResourceGroups_first_error_witness :
  armclient_cred.ListResourceGroups (TokenCredential := string) instance.StringLower
    None (inl AuthenticationFailed)
    {| newClientError := None; pages := [inr (Some [groupA])] |}
  = Panicked AuthenticationFailed ∧
  armclient_cred.ListResourceGroups instance.StringLower None (inr "token")
    {| newClientError := None;
       pages := [inr (Some [groupA]); inl (TransportError "reset"); inr (Some [groupB])] |}
  = Returned ((None, Some (TransportError "reset")), Some "token").
Proof.
  split.
  - apply (ListResourceGroups_first_error (TokenCredential := string)
             instance.StringLower None (inl AuthenticationFailed)).
    split; reflexivity.
  - destruct (ListResourceGroups_first_error instance.StringLower
                None (inr "token")
                {| newClientError := None;
                   pages := [inr (Some [groupA]); inl (TransportError "reset");
                             inr (Some [groupB])] |}) as [_ Hret].
    destruct (Hret "token" (Some "token") eq_refl) as (r & Hr & _ & Hpage & _).
    destruct (Hpage [inr (Some [groupA])] (TransportError "reset")
                    [inr (Some [groupB])] []) as [-> _].
    + reflexivity.
    + repeat constructor.
    + reflexivity.
    + exact Hr.
Defined.

Lemma ListResourceGroups_keys_witness :
  ∃ list,
    ListResourceGroups instance.StringLower
      {| newClientError := None;
         pages := [inr (Some [groupA]); inr None; inr (Some [groupB])] |}
    = (Some list, None) ∧
    ∃ g, list !! "rg-a" = Some g ∧ instance.StringLower (rgName g) = "rg-a".
Proof.
  destruct (ListResourceGroups_keys instance.StringLower
              {| newClientError := None;
                 pages := [inr (Some [groupA]); inr None; inr (Some [groupB])] |})
    as (list & Hlist & _ & Hall).
  - reflexivity.
  - repeat constructor.
  - exists list. split; [exact Hlist|]. apply (Hall groupA).
    vm_compute. apply list_elem_of_here.
Defined.

(** X6. After [ListCachedResourceGroups] has listed the resource groups of
    a subscription without error, every call for that subscription while
    the entry is fresh returns the same map without an error, whatever the
    Azure API would answer, and leaves the client as it is. *)
Theorem ListCachedResourceGroups_serves_from_cache StringLower
    (azureClient : ArmClient) now now' t t' subscriptionID api api2 list :
  (∀ m, Get (cache azureClient) now ("resourcegroups:" +:+ subscriptionID)
          ≠ (anyResourceGroups m, true)) →
  ListResourceGroups StringLower api = (list, None) →
  fresh (cache azureClient) now' (cacheTtl azureClient) t →
  let azureClient1 :=
    (ListCachedResourceGroups StringLower azureClient now now' subscriptionID api).2 in
  ListCachedResourceGroups StringLower azureClient1 t t' subscriptionID api2
  = ((list, None), azureClient1).
Proof.
  intros Hmiss Hlist Hfresh azureClient1.
  assert (Hc : cache azureClient1
               = Set_ (cache azureClient) now' ("resourcegroups:" +:+ subscriptionID)
                   (anyResourceGroups list) (cacheTtl azureClient)).
  { unfold azureClient1, ListCachedResourceGroups. rewrite Hlist.
    destruct (Get (cache azureClient) now ("resourcegroups:" +:+ subscriptionID))
      as [[|m|p] [|]] eqn:Hget; try done.
    exfalso. by apply (Hmiss m). }
  unfold ListCachedResourceGroups at 1. rewrite Hc.
  by rewrite Get_Set_fresh.
Qed.

Lemma ListCachedResourceGroups_serves_from_cache_witness :
  let api := {| newClientError := None; pages := [inr (Some [groupA])] |} in
  let down := {| newClientError := Some (TransportError "down"); pages := [] |} in
  let azureClient1 :=
    (ListCachedResourceGroups instance.StringLower NewArmClient 0 0 "sub" api).2 in
  ListCachedResourceGroups instance.StringLower azureClient1 (30 * Minute)
    (30 * Minute) "sub" down
  = ((Some {["rg-a" := groupA]}, None), azureClient1).
Proof.
  intros api down azureClient1.
  apply (ListCachedResourceGroups_serves_from_cache instance.StringLower NewArmClient
           0 0 (30 * Minute) (30 * Minute) "sub" api down).
  - intros m. vm_compute. discriminate.
  - vm_compute. reflexivity.
  - right. vm_compute. repeat split; discriminate.
Defined.

Lemma resourcegroups_key_inj a b :
  "resourcegroups:" +:+ a = "resourcegroups:" +:+ b → a = b.
Proof. intros H. by simplify_eq. Qed.

(** X7. The cache is kept by subscription: a call of
    [ListCachedResourceGroups] for one subscription leaves what the cache
    answers for every other subscription as it was, at every time. *)
Theorem ListCachedResourceGroups_other_subscription StringLower
    (azureClient : ArmClient) now now' subscriptionID other api t :
  subscriptionID ≠ other →
  let azureClient1 :=
    (ListCachedResourceGroups StringLower azureClient now now' subscriptionID api).2 in
  Get (cache azureClient1) t ("resourcegroups:" +:+ other)
  = Get (cache azureClient) t ("resourcegroups:" +:+ other).
Proof.
  intros Hne azureClient1. unfold azureClient1, ListCachedResourceGroups.
  assert (Hkey : "resourcegroups:" +:+ subscriptionID ≠ "resourcegroups:" +:+ other).
  { intros H. by apply resourcegroups_key_inj in H. }
  destruct (ListResourceGroups StringLower api) as [list [err|]];
    destruct (Get (cache azureClient) now ("resourcegroups:" +:+ subscriptionID))
      as [[|m|p] [|]]; simpl; try done; by apply Get_Set_ne.
Qed.

Lemma ListCachedResourceGroups_other_subscription_witness :
  let api := {| newClientError := None; pages := [inr (Some [groupA])] |} in
  let azureClient1 :=
    (ListCachedResourceGroups instance.StringLower NewArmClient 0 0 "sub-1" api).2 in
  Get (cache azureClient1) 1 ("resourcegroups:" +:+ "sub-2") = (anyNil, false).
Proof.
  intros api azureClient1. unfold azureClient1.
  rewrite (ListCachedResourceGroups_other_subscription instance.StringLower
             NewArmClient 0 0 "sub-1" "sub-2" api 1); [reflexivity|discriminate].
Defined.

(** X8. [NewArmClientFromEnvironment] never returns an error: it returns
    the new client with a nil error when [AZURE_ENVIRONMENT] is set and
    names a known cloud, and panics otherwise. The client it returns has
    an empty cache and a time to live of thirty minutes. *)
Theorem NewArmClientFromEnvironment_no_error Getenv NewCloudConfig :
  match NewArmClientFromEnvironment Getenv NewCloudConfig with
  | Returned (azureClient, err) =>
      err = None ∧ Getenv "AZURE_ENVIRONMENT" ≠ "" ∧
      (∃ config, NewCloudConfig (Getenv "AZURE_ENVIRONMENT") = inr config) ∧
      items (cache azureClient) = ∅ ∧ cacheTtl azureClient = 30 * Minute
  | Panicked _ =>
      Getenv "AZURE_ENVIRONMENT" = "" ∨
      ∃ msg, NewCloudConfig (Getenv "AZURE_ENVIRONMENT") = inl msg
  end.
Proof.
  unfold NewArmClientFromEnvironment, NewArmClientWithCloudName.
  destruct (String.eqb_spec (Getenv "AZURE_ENVIRONMENT") "") as [Hempty|Hset].
  - by left.
  - destruct (NewCloudConfig (Getenv "AZURE_ENVIRONMENT")) as [msg|config] eqn:Hcfg.
    + right. eauto.
    + repeat split; eauto.
Qed.

End armclient_more_facts.


(** ** The client of package [azure] *)

Module azure_facts.
Import time azure.

Lemma azure_UnixNano_small z : minDuration ≤ z ≤ maxDuration → UnixNano z = z.
Proof.
  unfold UnixNano, minDuration, maxDuration, wrap64. intros H.
  rewrite Z.mod_small; lia.
Qed.

Lemma azure_Get_Set_fresh c now' k x d t :
  fresh c now' d t → Get (Set_ c now' k x d) t k = (x, true).
Proof.
  unfold fresh, Get, Set_. simpl. rewrite lookup_insert_eq. simpl.
  set (d' := if d =? DefaultExpiration then defaultExpiration c else d).
  intros [Hd|(Ht & Hle & Hmax)].
  - destruct (0 <? d') eqn:H0; [apply Z.ltb_lt in H0; lia|]. done.
  - destruct (0 <? d') eqn:H0; [|done]. apply Z.ltb_lt in H0.
    unfold Add.
    rewrite !azure_UnixNano_small by (unfold minDuration, maxDuration in *; lia).
    destruct (0 <? now' + d'); simpl; [|done].
    destruct (now' + d' <? t) eqn:Hlt; [apply Z.ltb_lt in Hlt; lia|done].
Qed.

Lemma appendRows_ok rs list :
  advancesOk rs → appendRows rs list = (list ++ rs.*1)%list.
Proof.
  revert list. induction rs as [|[row next] rs IH]; intros list Hok; simpl.
  - by rewrite app_nil_r.
  - inversion Hok as [|? ? Hnext Hrest]; subst. simpl in Hnext. subst next.
    rewrite IH by done. by rewrite <- app_assoc.
Qed.

Lemma appendRows_stops good row err rest list :
  advancesOk good →
  appendRows (good ++ (row, Some err) :: rest) list = (list ++ good.*1 ++ [row])%list.
Proof.
  revert list. induction good as [|[r next] good IH]; intros list Hok; simpl.
  - done.
  - inversion Hok as [|? ? Hnext Hrest]; subst. simpl in Hnext. subst next.
    rewrite IH by done. by rewrite <- app_assoc.
Qed.

(** X9. [ListSubscriptions] reports an error only when the list call
    itself fails, and then returns an empty list with it. An error of
    [NextWithContext] is not reported: the listing ends there, and the
    subscriptions read so far, the one before the failed call included,
    are returned without an error. *)
Theorem ListSubscriptions_errors api :
  snd (ListSubscriptions api) = listError api ∧
  (∀ err, listError api = Some err → ListSubscriptions api = (Some [], Some err)) ∧
  (listError api = None → advancesOk (rows api) →
     ListSubscriptions api = (Some (rows api).*1, None)) ∧
  (∀ good row err rest,
     listError api = None → advancesOk good →
     rows api = (good ++ (row, Some err) :: rest)%list →
     ListSubscriptions api = (Some (good.*1 ++ [row])%list, None)).
Proof.
  unfold ListSubscriptions. repeat split.
  - by destruct (listError api).
  - by intros err ->.
  - intros -> Hok. by rewrite appendRows_ok.
  - intros good row err rest -> Hok ->. by rewrite appendRows_stops.
Qed.

Lemma ListSubscriptions_errors_witness :
  ListSubscriptions
    {| listError := None;
       rows := [(subscriptionA, Some (TransportError "reset")); (subscriptionB, None)] |}
  = (Some [subscriptionA], None).
Proof.
  destruct (ListSubscriptions_errors
              {| listError := None;
                 rows := [(subscriptionA, Some (TransportError "reset"));
                          (subscriptionB, None)] |}) as (_ & _ & _ & Hstop).
  apply (Hstop [] subscriptionA (TransportError "reset") [(subscriptionB, None)]).
  - reflexivity.
  - constructor.
  - reflexivity.
Defined.

(** X10. When [ListCachedSubscriptions] misses and the list call fails,
    it returns a nil list (not the empty list of [ListSubscriptions]) with
    the error and leaves the client and its cache as they are. *)
Theorem ListCachedSubscriptions_error (azureClient : Client) now now' api err :
  (∀ l, Get (cache azureClient) now "subscriptions" ≠ (anySubscriptions l, true)) →
  listError api = Some err →
  ListCachedSubscriptions azureClient now now' api = ((None, Some err), azureClient) ∧
  fst (ListSubscriptions api) = Some [].
Proof.
  intros Hmiss Herr. unfold ListCachedSubscriptions, ListSubscriptions. rewrite Herr.
  split; [|done].
  destruct (Get (cache azureClient) now "subscriptions") as [[|l|m|p] [|]] eqn:Hget;
    try done.
  exfalso. by apply (Hmiss l).
Qed.

Lemma ListCachedSubscriptions_error_witness :
  ListCachedSubscriptions NewClient 0 0
    {| listError := Some AuthenticationFailed; rows := [] |}
  = ((None, Some AuthenticationFailed), NewClient).
Proof.
  apply (ListCachedSubscriptions_error NewClient 0 0
           {| listError := Some AuthenticationFailed; rows := [] |}
           AuthenticationFailed).
  - intros l. vm_compute. discriminate.
  - reflexivity.
Defined.

(** X11. After [ListCachedSubscriptions] has listed the subscriptions
    (a listing cut short by a failed [NextWithContext] included), every
    call while the entry is fresh returns that same list without an error,
    whatever the Azure API would answer, and leaves the client as it
    is. *)
Theorem ListCachedSubscriptions_serves_from_cache (azureClient : Client)
    now now' t t' api api2 :
  (∀ l, Get (cache azureClient) now "subscriptions" ≠ (anySubscriptions l, true)) →
  listError api = None →
  fresh (cache azureClient) now' (cacheTtl azureClient) t →
  let azureClient1 := (ListCachedSubscriptions azureClient now now' api).2 in
  ListCachedSubscriptions azureClient1 t t' api2
  = ((Some (appendRows (rows api) []), None), azureClient1).
Proof.
  intros Hmiss Herr Hfresh azureClient1.
  assert (Hc : cache azureClient1
               = Set_ (cache azureClient) now' "subscriptions"
                   (anySubscriptions (Some (appendRows (rows api) [])))
                   (cacheTtl azureClient)).
  { unfold azureClient1, ListCachedSubscriptions, ListSubscriptions. rewrite Herr.
    destruct (Get (cache azureClient) now "subscriptions") as [[|l|m|p] [|]] eqn:Hget;
      try done.
    exfalso. by apply (Hmiss l). }
  unfold ListCachedSubscriptions at 1. rewrite Hc.
  by rewrite azure_Get_Set_fresh.
Qed.

Lemma ListCachedSubscriptions_serves_from_cache_witness :
  let cut := {| listError := None;
                rows := [(subscriptionA, Some (TransportError "reset"));
                         (subscriptionB, None)] |} in
  let whole := {| listError := None;
                  rows := [(subscriptionA, None); (subscriptionB, None)] |} in
  let azureClient1 := (ListCachedSubscriptions NewClient 0 0 cut).2 in
  ListCachedSubscriptions azureClient1 (10 * Minute) (10 * Minute) whole
  = ((Some [subscriptionA], None), azureClient1).
Proof.
  intros cut whole azureClient1.
  apply (ListCachedSubscriptions_serves_from_cache NewClient 0 0 (10 * Minute)
           (10 * Minute) cut whole).
  - intros l. vm_compute. discriminate.
  - reflexivity.
  - right. vm_compute. repeat split; discriminate.
Defined.

(** X12. For a subscription without an ID, [ListCachedResourceGroups]
    looks under the key of the empty ID: a cached map is returned, and on
    a miss the call panics with a nil pointer dereference before anything
    is listed or cached. *)
Theorem ListCachedResourceGroups_nil_subscription ToLower (azureClient : Client)
    now now' subscription api :
  SubscriptionID subscription = None →
  (∀ m, Get (cache azureClient) now "resourcegroups:" = (anyGroups m, true) →
     ListCachedResourceGroups ToLower azureClient now now' subscription api
     = Returned ((m, None), azureClient)) ∧
  ((∀ m, Get (cache azureClient) now "resourcegroups:" ≠ (anyGroups m, true)) →
     ListCachedResourceGroups ToLower azureClient now now' subscription api
     = Panicked nilPointer).
Proof.
  intros Hnil. unfold ListCachedResourceGroups. rewrite Hnil. simpl.
  change ("resourcegroups:" +:+ "") with "resourcegroups:".
  split.
  - by intros m ->.
  - intros Hmiss.
    destruct (Get (cache azureClient) now "resourcegroups:") as [[|l|m|p] [|]] eqn:Hget;
      try done.
    exfalso. by apply (Hmiss m).
Qed.

Lemma ListCachedResourceGroups_nil_subscription_witness :
  ListCachedResourceGroups instance.lower_string NewClient 0 0 anonymous
    {| listError := None; rows := [] |}
  = Panicked nilPointer.
Proof.
  destruct (ListCachedResourceGroups_nil_subscription instance.lower_string NewClient
              0 0 anonymous {| listError := None; rows := [] |} eq_refl) as [_ Hmiss].
  apply Hmiss. intros m. vm_compute. discriminate.
Defined.

Lemma putRows_sound ToLower rs list k group :
  (∀ k' g, list !! k' = Some g → ToLower (to_String (Name g)) = k') →
  putRows ToLower rs list !! k = Some group →
  ToLower (to_String (Name group)) = k.
Proof.
  revert list. induction rs as [|[row next] rs IH]; intros list Hinv; simpl.
  - apply Hinv.
  - assert (Hinv' : ∀ k' g,
               <[ToLower (to_String (Name row)) := row]> list !! k' = Some g →
               ToLower (to_String (Name g)) = k').
    { intros k' g.
      destruct (decide (ToLower (to_String (Name row)) = k')) as [<-|Hne].
      - rewrite lookup_insert_eq. by intros [= <-].
      - rewrite lookup_insert_ne by done. apply Hinv. }
    destruct next; [apply Hinv'|by apply IH].
Qed.

(** X13. For a subscription with an ID, [ListResourceGroups] returns an
    error only when the list call itself fails, together with an empty
    map; otherwise it returns a map without an error, also when a call to
    [NextWithContext] failed, and every entry of the map is keyed by the
    lower-cased name of its resource group. *)
Theorem ListResourceGroups_package_azure ToLower subscription api :
  SubscriptionID subscription ≠ None →
  (∀ err, listError api = Some err →
     ListResourceGroups ToLower subscription api = Returned (Some ∅, Some err)) ∧
  (listError api = None →
     ∃ list,
       ListResourceGroups ToLower subscription api = Returned (Some list, None) ∧
       ∀ k group, list !! k = Some group → ToLower (to_String (Name group)) = k).
Proof.
  intros Hid. unfold ListResourceGroups.
  destruct (SubscriptionID subscription); [|done]. split.
  - by intros err ->.
  - intros ->. eexists. split; [done|]. intros k group.
    apply putRows_sound. intros k' g. by rewrite lookup_empty.
Qed.

Lemma ListResourceGroups_package_azure_witness :
  ∃ list,
    ListResourceGroups instance.lower_string subscriptionA
      {| listError := None;
         rows := [({| Name := Some "RG-One"; Location := None |},
                   Some (TransportError "reset"))] |}
    = Returned (Some list, None) ∧
    ∀ k group, list !! k = Some group →
               instance.lower_string (to_String (Name group)) = k.
Proof.
  destruct (ListResourceGroups_package_azure instance.lower_string subscriptionA
              {| listError := None;
                 rows := [({| Name := Some "RG-One"; Location := None |},
                           Some (TransportError "reset"))] |}) as [_ Hok].
  - discriminate.
  - apply Hok. reflexivity.
Defined.

End azure_facts.


(** ** More on the cache location and the store *)

Module store_more_facts.
Import time collector.

Section StoreMore.
Context {MetricRow MetricState : Type}.
Implicit Types (c : Collector MetricRow MetricState) (cs : cacheSpecDef).
Implicit Types (w : World) (f : Faults).

Lemma TrimPrefix_file path : strings.TrimPrefix ("file://" +:+ path) "file://" = path.
Proof.
  unfold strings.TrimPrefix, strings.HasPrefix.
  change ("file://" +:+ path)
    with (String "f" (String "i" (String "l" (String "e"
            (String ":" (String "/" (String "/" path))))))).
  assert (Hpre : String.prefix "file://"
                   (String "f" (String "i" (String "l" (String "e"
                      (String ":" (String "/" (String "/" path))))))) = true).
  { apply String.prefix_correct. simpl.
    assert (Hsub : ∀ s, substring 0 0 s = "") by (by intros []).
    by rewrite Hsub. }
  rewrite Hpre. reflexivity.
Qed.

(** X14. A location that does not start with [azblob://] always resolves:
    [SetCache] returns without calling a constructor and without touching
    the world, and sets the file protocol, the tag given and the location
    without a leading [file://] as the path. A location [file://p] gives
    the path [p]. *)
Theorem SetCache_file_location (url_Parse : string → error + url.URL)
    c rawSpec cacheTag env w :
  strings.HasPrefix rawSpec "azblob://" = false →
  ∃ cs,
    SetCache url_Parse c (Some rawSpec) cacheTag env w
    = (Returned (), set_cache c (Some cs), w) ∧
    protocol cs = cacheProtocolFile ∧ tag cs = cacheTag ∧ raw cs = rawSpec ∧
    client cs = None ∧
    spec cs !! "file:path" = Some (strings.TrimPrefix rawSpec "file://") ∧
    (∀ path, rawSpec = "file://" +:+ path → spec cs !! "file:path" = Some path).
Proof.
  intros Hblob. unfold SetCache. rewrite Hblob.
  destruct (strings.HasPrefix rawSpec "file://") eqn:Hfile.
  - eexists. split; [reflexivity|]. simpl.
    split; [done|]. split; [done|]. split; [done|]. split; [done|]. split.
    + apply lookup_insert_eq.
    + intros path ->. rewrite lookup_insert_eq. by rewrite TrimPrefix_file.
  - eexists. split; [reflexivity|]. simpl.
    split; [done|]. split; [done|]. split; [done|]. split; [done|]. split.
    + rewrite lookup_insert_eq. unfold strings.TrimPrefix. by rewrite Hfile.
    + intros path ->. rewrite lookup_insert_eq. f_equal.
      rewrite <- (TrimPrefix_file path) at 2.
      unfold strings.TrimPrefix. by rewrite Hfile.
Qed.

(** X26. When [SetCache] panics on an [azblob://] location, the cache of
    the collector is already set: it has the blob protocol, the tag and the
    location given, and no client, so that a later read through it panics
    on the nil client. The data of the collector are as before. *)
Theorem SetCache_azblob_panic (url_Parse : string → error + url.URL)
    c rawSpec cacheTag env w err c' w' :
  strings.HasPrefix rawSpec "azblob://" = true →
  SetCache url_Parse c (Some rawSpec) cacheTag env w = (Panicked err, c', w') →
  ∃ cs,
    cache c' = Some cs ∧ protocol cs = cacheProtocolAzBlob ∧ client cs = None ∧
    tag cs = cacheTag ∧ raw cs = rawSpec ∧ data c' = data c ∧
    ∀ w2 f, cacheRead c' w2 f = Panicked nilInterface.
Proof.
  intros Hpre. unfold SetCache.
  rewrite (location_facts.azblob_not_file _ Hpre), Hpre.
  destruct (SetCache_azblob url_Parse rawSpec _ env w) as [[o cs] w1] eqn:Hrun.
  intros [= -> <- <-].
  assert (Hcs : protocol cs = cacheProtocolAzBlob ∧ client cs = None ∧
                tag cs = cacheTag ∧ raw cs = rawSpec).
  { unfold SetCache_azblob, logPanic in Hrun.
    destruct (url_Parse rawSpec) as [e|parsedUrl]; [by injection Hrun as _ <- _|].
    destruct (NewArmClientFromEnvironment env) as [[e|]|e];
      [by injection Hrun as _ <- _| |by injection Hrun as _ <- _].
    destruct (strings.SplitN (url.Path parsedUrl) "/" 2) as [|container [|blob rest]];
      [by injection Hrun as _ <- _|by injection Hrun as _ <- _|].
    destruct (GetCred env); [by injection Hrun as _ <- _|].
    destruct (NewClient env); [by injection Hrun as _ <- _|].
    by injection Hrun. }
  destruct Hcs as (Hp & Hcl & Htag & Hraw).
  exists cs. repeat split; try done.
  intros w2 f. unfold cacheRead. simpl.
  by rewrite Hp, save_facts.protocols_differ, Hcl.
Qed.

Lemma Rename_files_ne fs oldpath newpath fault p :
  p ≠ oldpath → p ≠ newpath →
  os.files (os.Rename fs oldpath newpath fault).1 !! p = os.files fs !! p.
Proof.
  intros Hold Hnew. unfold os.Rename. destruct fault; [done|].
  destruct (os.files fs !! oldpath); [|done].
  destruct (bool_decide _); [done|]. simpl.
  rewrite lookup_insert_ne by done. by rewrite lookup_delete_ne.
Qed.

Lemma Rename_returned fs oldpath newpath fault fs' :
  os.Rename fs oldpath newpath fault = (fs', None) →
  ∃ content, os.files fs !! oldpath = Some content ∧
             os.files fs' = <[newpath := content]> (delete oldpath (os.files fs)) ∧
             os.dirs fs' = os.dirs fs.
Proof.
  unfold os.Rename. destruct fault; [congruence|].
  destruct (os.files fs !! oldpath) as [content|]; [|congruence].
  destruct (bool_decide _); [congruence|]. intros [= <-]. eauto.
Qed.

Lemma WriteFile_returned fs path data fault fs' :
  os.WriteFile fs path data fault = (fs', None) →
  os.files fs' = <[path := data]> (os.files fs) ∧ os.dirs fs' = os.dirs fs.
Proof.
  unfold os.WriteFile. destruct fault as [[e|e n]|]; [congruence..|].
  destruct (bool_decide _); [congruence|]. by intros [= <-].
Qed.

(** The files after a write that returned. *)
Lemma cacheStore_file_returned filePath content w f w' :
  cacheStore_file filePath content w f = (Returned (), w') →
  os.files (fs w')
  = <[filePath := content]>
      (delete (tmpFilePath filePath)
         (<[tmpFilePath filePath := content]> (os.files (fs w)))) ∧
  storage w' = storage w ∧ log w' = log w.
Proof.
  unfold cacheStore_file, logPanic.
  destruct (IsNotExist _).
  - pose proof (store_facts.Mkdir_files (fs w) (filepath.Dir filePath) (mkdir_fault f))
      as Hmk.
    destruct (os.Mkdir _ _ _) as [fs1 [e1|]]; simpl in *; [congruence|].
    destruct (os.WriteFile _ _ _ _) as [fs2 [e2|]] eqn:Hwr; [congruence|].
    destruct (os.Rename _ _ _ _) as [fs3 [e3|]] eqn:Hrn; [congruence|].
    intros [= <-]. simpl.
    apply WriteFile_returned in Hwr as [Hw2 _].
    apply Rename_returned in Hrn as (content' & Hold & -> & _).
    rewrite Hw2, lookup_insert_eq in Hold. injection Hold as <-.
    by rewrite Hw2, Hmk.
  - destruct (os.WriteFile _ _ _ _) as [fs2 [e2|]] eqn:Hwr; [congruence|].
    destruct (os.Rename _ _ _ _) as [fs3 [e3|]] eqn:Hrn; [congruence|].
    intros [= <-]. simpl.
    apply WriteFile_returned in Hwr as [Hw2 _].
    apply Rename_returned in Hrn as (content' & Hold & -> & _).
    rewrite Hw2, lookup_insert_eq in Hold. injection Hold as <-.
    by rewrite Hw2.
Qed.

(** X15. A write to the file cache that returns leaves the whole content
    at the destination and no temporary file behind; every other file, the
    blob storage and the log are as before. *)
Theorem cacheStore_file_success c cs content w f w' :
  cache c = Some cs →
  protocol cs = cacheProtocolFile →
  cacheStore c content w f = (Returned (), w') →
  let filePath := index (spec cs) "file:path" in
  os.files (fs w') !! filePath = Some content ∧
  os.files (fs w') !! tmpFilePath filePath = None ∧
  (∀ path, path ≠ filePath → path ≠ tmpFilePath filePath →
           os.files (fs w') !! path = os.files (fs w) !! path) ∧
  storage w' = storage w ∧ log w' = log w.
Proof.
  intros Hc Hp. unfold cacheStore. rewrite Hc, Hp. simpl.
  intros Hst. apply cacheStore_file_returned in Hst as (Hfiles & Hstorage & Hlog).
  pose proof (filepath_facts.tmpFilePath_ne (index (spec cs) "file:path")) as Htmp.
  rewrite Hfiles. repeat split; try done.
  - apply lookup_insert_eq.
  - rewrite lookup_insert_ne by done. apply lookup_delete_eq.
  - intros path H1 H2.
    rewrite lookup_insert_ne, lookup_delete_ne, lookup_insert_ne by done. done.
Qed.

(** X16. Whatever its outcome, a write to the file cache changes no file
    but the destination and the temporary file, and leaves the blob storage
    alone. *)
Theorem cacheStore_file_frame c cs content w f path :
  cache c = Some cs →
  protocol cs = cacheProtocolFile →
  path ≠ index (spec cs) "file:path" →
  path ≠ tmpFilePath (index (spec cs) "file:path") →
  let w' := (cacheStore c content w f).2 in
  os.files (fs w') !! path = os.files (fs w) !! path ∧ storage w' = storage w.
Proof.
  intros Hc Hp Hdest Htmp. unfold cacheStore. rewrite Hc, Hp. simpl.
  unfold cacheStore_file, logPanic.
  set (filePath := index (spec cs) "file:path") in *.
  assert (Hstep : ∀ w1,
             os.files (fs w1) !! path = os.files (fs w) !! path →
             storage w1 = storage w →
             let r := match os.WriteFile (fs w1) (tmpFilePath filePath) content
                              (writefile_fault f) with
                      | (fs2, Some err) =>
                          (Panicked err, logf PanicLevel (msgPanic err) (set_fs w1 fs2))
                      | (fs2, None) =>
                          match os.Rename fs2 (tmpFilePath filePath) filePath
                                  (rename_fault f) with
                          | (fs3, Some err) =>
                              (Panicked err,
                               logf PanicLevel (msgPanic err) (set_fs w1 fs3))
                          | (fs3, None) => (@Returned unit (), set_fs w1 fs3)
                          end
                      end in
             os.files (fs r.2) !! path = os.files (fs w) !! path ∧
             storage r.2 = storage w).
  { intros w1 Hfiles Hstorage.
    pose proof (store_facts.WriteFile_files_ne (fs w1) (tmpFilePath filePath) content
                  (writefile_fault f) path Htmp) as Hwr.
    destruct (os.WriteFile _ _ _ _) as [fs2 [e2|]]; simpl in *.
    - by rewrite Hwr.
    - pose proof (Rename_files_ne fs2 (tmpFilePath filePath) filePath
                    (rename_fault f) path Htmp Hdest) as Hrn.
      destruct (os.Rename _ _ _ _) as [fs3 [e3|]]; simpl in *;
        by rewrite Hrn, Hwr. }
  destruct (IsNotExist _).
  - pose proof (store_facts.Mkdir_files (fs w) (filepath.Dir filePath) (mkdir_fault f))
      as Hmk.
    destruct (os.Mkdir _ _ _) as [fs1 [e1|]]; simpl in *.
    + by rewrite Hmk.
    + apply (Hstep (set_fs w fs1)); simpl; [by rewrite Hmk|done].
  - by apply (Hstep w).
Qed.

Lemma WriteFile_dirs fs path data fault :
  os.dirs (os.WriteFile fs path data fault).1 = os.dirs fs.
Proof.
  unfold os.WriteFile. destruct fault as [[e|e n]|]; simpl; try done.
  by destruct (bool_decide _).
Qed.

Lemma Rename_dirs fs oldpath newpath fault :
  os.dirs (os.Rename fs oldpath newpath fault).1 = os.dirs fs.
Proof.
  unfold os.Rename. destruct fault; [done|].
  destruct (os.files fs !! oldpath); [|done]. by destruct (bool_decide _).
Qed.

(** The write and the rename leave the directories as they are. *)
Lemma write_rename_dirs filePath content w1 f :
  os.dirs (fs (match os.WriteFile (fs w1) (tmpFilePath filePath) content
                       (writefile_fault f) with
               | (fs2, Some err) =>
                   (@Panicked unit err,
                    logf PanicLevel (msgPanic err) (set_fs w1 fs2))
               | (fs2, None) =>
                   match os.Rename fs2 (tmpFilePath filePath) filePath
                           (rename_fault f) with
                   | (fs3, Some err) =>
                       (Panicked err, logf PanicLevel (msgPanic err) (set_fs w1 fs3))
                   | (fs3, None) => (Returned (), set_fs w1 fs3)
                   end
               end).2)
  = os.dirs (fs w1).
Proof.
  pose proof (WriteFile_dirs (fs w1) (tmpFilePath filePath) content (writefile_fault f))
    as Hwr.
  destruct (os.WriteFile _ _ _ _) as [fs2 [e2|]]; simpl in *; [done|].
  pose proof (Rename_dirs fs2 (tmpFilePath filePath) filePath (rename_fault f)) as Hrn.
  destruct (os.Rename _ _ _ _) as [fs3 [e3|]]; simpl in *; by rewrite Hrn.
Qed.

(** X17. The directory of the cache file is made only when [os.Stat]
    reports that it does not exist. If [os.Stat] reports anything else,
    an error of another kind included, no directory is made and the write
    goes on. If making it fails, the write panics with that error and the
    file system is as before: no temporary file was written. If it is
    made, it is there after the write, whatever the outcome. *)
Theorem cacheStore_directory c cs content w f :
  cache c = Some cs →
  protocol cs = cacheProtocolFile →
  let dirPath := filepath.Dir (index (spec cs) "file:path") in
  let r := cacheStore c content w f in
  (IsNotExist (os.Stat (fs w) dirPath (stat_fault f)) = false →
     os.dirs (fs r.2) = os.dirs (fs w)) ∧
  (∀ fs1 err,
     IsNotExist (os.Stat (fs w) dirPath (stat_fault f)) = true →
     os.Mkdir (fs w) dirPath (mkdir_fault f) = (fs1, Some err) →
     r.1 = Panicked err ∧ fs r.2 = fs w) ∧
  (∀ fs1,
     IsNotExist (os.Stat (fs w) dirPath (stat_fault f)) = true →
     os.Mkdir (fs w) dirPath (mkdir_fault f) = (fs1, None) →
     dirPath ∈ os.dirs (fs r.2)).
Proof.
  intros Hc Hp dirPath r. unfold r, cacheStore. rewrite Hc, Hp. simpl.
  unfold cacheStore_file, logPanic. fold dirPath.
  split; [|split].
  - intros ->. apply write_rename_dirs.
  - intros fs1 err -> Hmk. rewrite Hmk. simpl. split; [done|].
    unfold os.Mkdir in Hmk. destruct (mkdir_fault f); [congruence|].
    destruct (os.exists_ (fs w) dirPath); congruence.
  - intros fs1 -> Hmk. rewrite Hmk. rewrite write_rename_dirs. simpl.
    unfold os.Mkdir in Hmk. destruct (mkdir_fault f); [congruence|].
    destruct (os.exists_ (fs w) dirPath); [congruence|].
    injection Hmk as <-. simpl. set_solver.
Qed.

(** X18. With the blob protocol and a client, a write never touches the
    file system or another blob. When the upload goes through, the write
    returns, the blob holds the content and nothing is logged; when the
    upload fails, the write panics with its error, logged at panic level,
    and the storage is as before. *)
Theorem cacheStore_azblob_outcomes c cs cl content w f :
  cache c = Some cs →
  protocol cs = cacheProtocolAzBlob →
  client cs = Some cl →
  let key := (index (spec cs) "azblob:container", index (spec cs) "azblob:blob") in
  let r := cacheStore c content w f in
  fs r.2 = fs w ∧
  (∀ k, k ≠ key → storage r.2 !! k = storage w !! k) ∧
  match upload_fault f with
  | None => r.1 = Returned () ∧ storage r.2 !! key = Some content ∧ log r.2 = log w
  | Some err =>
      r.1 = Panicked err ∧ storage r.2 = storage w ∧
      log r.2 = (log w ++ [(PanicLevel, msgPanic err)])%list
  end.
Proof.
  intros Hc Hp Hcl key r. unfold r, cacheStore.
  rewrite Hc, Hp, save_facts.protocols_differ, Hcl. simpl.
  unfold azblob.UploadBuffer, logPanic. fold key.
  destruct (upload_fault f) as [err|]; simpl.
  - done.
  - split; [done|]. split.
    + intros k Hk. apply lookup_insert_ne. congruence.
    + split; [done|]. split; [apply lookup_insert_eq|done].
Qed.

(** X19. What [cacheStore] has written, [cacheRead] reads back: after a
    write to the file or to the blob that returned, a read without faults
    by the same collector finds exactly the content written. *)
Theorem cacheStore_cacheRead_roundtrip c cs content w f w' :
  cache c = Some cs →
  protocol cs = cacheProtocolFile ∨ protocol cs = cacheProtocolAzBlob →
  cacheStore c content w f = (Returned (), w') →
  cacheRead c w' no_faults = Returned (Some content, true).
Proof.
  intros Hc [Hp|Hp] Hst.
  - apply (restore_facts.cacheRead_file_present c cs); [done..|].
    by apply (store_facts.cacheStore_success_writes c cs content w f).
  - apply (restore_facts.cacheRead_azblob_present c cs); [done..| |].
    + unfold cacheStore in Hst. rewrite Hc, Hp, save_facts.protocols_differ in Hst.
      simpl in Hst. by destruct (client cs).
    + by apply (save_facts.cacheStore_azblob_success c cs content w f).
Qed.

(** X20. Without faults, [cacheRead] on the file protocol finds a file
    that exists, with its whole content, and finds nothing when neither a
    file nor a directory is at the path. *)
Theorem cacheRead_file_no_faults c cs w :
  cache c = Some cs →
  protocol cs = cacheProtocolFile →
  let filePath := index (spec cs) "file:path" in
  (∀ content, os.files (fs w) !! filePath = Some content →
     cacheRead c w no_faults = Returned (Some content, true)) ∧
  (os.files (fs w) !! filePath = None → filePath ∉ os.dirs (fs w) →
     cacheRead c w no_faults = Returned (None, false)).
Proof.
  intros Hc Hp filePath. unfold cacheRead. rewrite Hc, Hp. simpl. fold filePath.
  unfold os.Stat, os.exists_, os.ReadFile. split.
  - by intros content ->.
  - intros -> Hdir. simpl. by rewrite bool_decide_eq_false_2.
Qed.

End StoreMore.
End store_more_facts.


(** ** More on saving and restoring *)

Module collector_more_facts.
Import time collector.

Section CollectorMore.
Context {MetricRow MetricState : Type}.
Variable json_Marshal : CollectorData MetricRow MetricState → error + bytes.
Variable json_Unmarshal : bytes → error + CollectorData MetricRow MetricState.
Variable Init : MetricList MetricRow MetricState → MetricList MetricRow MetricState.
Implicit Types (c : Collector MetricRow MetricState) (cs : cacheSpecDef).
Implicit Types (w : World) (f : Faults).

(** X21. Whatever its outcome, the save step changes nothing of the
    collector but the creation time, the expiry and the tag of its data:
    the metrics, the cache, the scrape time, the sleep time, the last
    scrape time and the start time of the cycle are as before. *)
Theorem collectionSaveCache_keeps_collector c now w f :
  let c' := (collectionSaveCache json_Marshal c now w f).1.2 in
  Metrics (data c') = Metrics (data c) ∧ cache c' = cache c ∧
  scrapeTime c' = scrapeTime c ∧ sleepTime c' = sleepTime c ∧
  lastScrapeTime c' = lastScrapeTime c ∧
  collectionStartTime c' = collectionStartTime c.
Proof.
  unfold collectionSaveCache.
  destruct (cache c) as [cs|] eqn:Hc; [|done].
  destruct (sleepTime c) as [sleep|] eqn:Hs; [|done].
  destruct (json_Marshal _) as [err|jsonData]; [done|].
  destruct (cacheStore _ _ _ _) as [[u|err] w1]; done.
Qed.

(** X22. When the data cannot be serialized, the save step returns
    without a panic, logs the error at error level, and writes nothing:
    the file system and the blob storage are as before. *)
Theorem collectionSaveCache_marshal_failure c cs sleep now w f err :
  cache c = Some cs →
  sleepTime c = Some sleep →
  json_Marshal {| Metrics := Metrics (data c);
                  Created := Some (collectionStartTime c);
                  Expiry := Some (Add now sleep);
                  Tag := tag cs |} = inl err →
  let r := collectionSaveCache json_Marshal c now w f in
  r.1.1 = Returned () ∧ fs r.2 = fs w ∧ storage r.2 = storage w ∧
  log r.2 = (log w ++ [(ErrorLevel, msgSerialize err)])%list.
Proof.
  intros Hc Hs Hm r. unfold r, collectionSaveCache. rewrite Hc, Hs. simpl.
  by rewrite Hm.
Qed.

(** X23. A cache that is not found, or whose content cannot be decoded,
    is a cold start: the restore step returns [false] and leaves the
    collector as it is. Nothing is logged when the cache is not found; a
    content that cannot be decoded is logged as a warning. *)
Theorem collectionRestoreCache_cold_start c cs now1 now2 w f :
  cache c = Some cs →
  (∀ content, cacheRead c w f = Returned (content, false) →
     collectionRestoreCache json_Unmarshal Init c now1 now2 w f
     = (Returned false, c, w)) ∧
  (∀ content err,
     cacheRead c w f = Returned (content, true) →
     json_Unmarshal (default [] content) = inl err →
     ∃ w',
       collectionRestoreCache json_Unmarshal Init c now1 now2 w f
       = (Returned false, c, w') ∧
       fs w' = fs w ∧ storage w' = storage w ∧
       log w' = (log w ++ [(InfoLevel, msgRestoring (raw cs));
                           (WarnLevel, msgDecode err)])%list).
Proof.
  intros Hc. unfold collectionRestoreCache. rewrite Hc. split.
  - by intros content ->.
  - intros content err -> ->. eexists. split; [done|].
    by rewrite restore_facts.log_logf_logf.
Qed.

(** X24. An accepted snapshot sets the expiry of the live data to the one
    of the record and, when the record has a creation time, the last
    scrape time to it; the creation time and the tag of the live data, the
    cache, the scrape time and the start time of the cycle are as before.
    Two lines are logged, both as information. *)
Theorem collectionRestoreCache_accepted c cs content restoredData expiry now1 now2 w f :
  cache c = Some cs →
  cacheRead c w f = Returned (content, true) →
  json_Unmarshal (default [] content) = inr restoredData →
  (∀ t, tag cs = Some t → Tag restoredData = Some t) →
  Expiry restoredData = Some expiry →
  now1 < expiry →
  let r := collectionRestoreCache json_Unmarshal Init c now1 now2 w f in
  let c' := r.1.2 in
  r.1.1 = Returned true ∧
  Expiry (data c') = Some expiry ∧
  lastScrapeTime c' = match Created restoredData with
                      | Some created => Some created
                      | None => lastScrapeTime c
                      end ∧
  Created (data c') = Created (data c) ∧ Tag (data c') = Tag (data c) ∧
  cache c' = cache c ∧ scrapeTime c' = scrapeTime c ∧
  collectionStartTime c' = collectionStartTime c ∧
  log r.2 = (log w ++ [(InfoLevel, msgRestoring (raw cs));
                       (InfoLevel, msgRestored (raw cs) expiry)])%list.
Proof.
  intros Hc Hread Hdec Htag Hexp Hfuture r c'. unfold c', r, collectionRestoreCache.
  rewrite Hc, Hread, Hdec,
    (proj2 (restore_facts.tagMismatch_false cs restoredData) Htag), Hexp.
  unfold After. rewrite (proj2 (Z.ltb_lt now1 expiry) Hfuture).
  unfold restoreData.
  destruct (Created restoredData) as [created|]; simpl;
    destruct (scrapeTime c) as [scrape|] eqn:Hsc; simpl;
    try destruct (_ <? scrape); simpl;
    rewrite <- ?app_assoc; repeat split; done.
Qed.

(** X25. The restore step only reads: whatever its outcome, the file
    system and the blob storage are as before, and the log has grown at
    its end, if at all. *)
Theorem collectionRestoreCache_reads_only c now1 now2 w f :
  let w' := (collectionRestoreCache json_Unmarshal Init c now1 now2 w f).2 in
  fs w' = fs w ∧ storage w' = storage w ∧ ∃ lines, log w' = (log w ++ lines)%list.
Proof.
  unfold collectionRestoreCache.
  assert (Hnone : ∃ lines : list (Level * message), log w = (log w ++ lines)%list)
    by (exists []; by rewrite app_nil_r).
  destruct (cache c) as [cs|]; [|done].
  destruct (cacheRead c w f) as [[content [|]]|err]; [|done|done].
  destruct (json_Unmarshal _) as [err|restoredData]; simpl.
  { repeat split. rewrite <- app_assoc. eauto. }
  destruct (tagMismatch cs restoredData); simpl.
  { repeat split. rewrite <- app_assoc. eauto. }
  destruct (Expiry restoredData) as [expiry|]; simpl.
  - destruct (After expiry now1); simpl.
    + unfold restoreData. simpl. repeat split. rewrite <- app_assoc. eauto.
    + repeat split. rewrite <- app_assoc. eauto.
  - repeat split. rewrite <- app_assoc. eauto.
Qed.

End CollectorMore.
End collector_more_facts.


(** ** The further theorems at work on the concrete instance *)

Module more_examples.
Import time collector instance.

Lemma SetCache_file_location_witness :
  ∃ cs,
    SetCache url.Parse newCollector (Some "file:///var/cache/metrics.json") (Some "v2")
      goodEnvironment emptyWorld
    = (Returned (), set_cache newCollector (Some cs), emptyWorld) ∧
    spec cs !! "file:path" = Some "/var/cache/metrics.json".
Proof.
  destruct (store_more_facts.SetCache_file_location url.Parse newCollector
              "file:///var/cache/metrics.json" (Some "v2") goodEnvironment emptyWorld
              eq_refl) as (cs & Hrun & _ & _ & _ & _ & _ & Hpath).
  exists cs. split; [exact Hrun|]. apply Hpath. reflexivity.
Defined.

Example cacheStore_returns :
  cacheStore (fileCollector cachePath None) newContent (fileWorld cachePath oldContent)
    no_faults
  = (Returned (),
     (cacheStore (fileCollector cachePath None) newContent
        (fileWorld cachePath oldContent) no_faults).2).
Proof. vm_compute. reflexivity. Qed.

Lemma cacheStore_file_success_witness :
  let w' := (cacheStore (fileCollector cachePath None) newContent
               (fileWorld cachePath oldContent) no_faults).2 in
  let filePath := index (spec (cacheFileSpec None)) "file:path" in
  os.files (fs w') !! filePath = Some newContent ∧
  os.files (fs w') !! tmpFilePath filePath = None ∧
  (∀ path, path ≠ filePath → path ≠ tmpFilePath filePath →
           os.files (fs w') !! path
           = os.files (fs (fileWorld cachePath oldContent)) !! path) ∧
  storage w' = storage (fileWorld cachePath oldContent) ∧
  log w' = log (fileWorld cachePath oldContent).
Proof.
  exact (store_more_facts.cacheStore_file_success (fileCollector cachePath None)
           (cacheFileSpec None) newContent (fileWorld cachePath oldContent) no_faults _
           eq_refl eq_refl cacheStore_returns).
Defined.

Lemma cacheStore_file_frame_witness :
  let w' := (cacheStore (fileCollector cachePath None) newContent
               (fileWorld "cache/other.json" oldContent) diskFull).2 in
  os.files (fs w') !! "cache/other.json" = Some oldContent.
Proof.
  intros w'.
  destruct (store_more_facts.cacheStore_file_frame (fileCollector cachePath None)
              (cacheFileSpec None) newContent (fileWorld "cache/other.json" oldContent)
              diskFull "cache/other.json" eq_refl eq_refl) as [Hfiles _].
  - vm_compute. discriminate.
  - vm_compute. discriminate.
  - fold w' in Hfiles. rewrite Hfiles. vm_compute. reflexivity.
Defined.

Lemma cacheStore_directory_witness :
  let r := cacheStore (fileCollector cachePath None) newContent emptyWorld
             noPermission in
  r.1 = Panicked (PathError "mkdir" "cache" EACCES) ∧ fs r.2 = fs emptyWorld.
Proof.
  intros r.
  destruct (store_more_facts.cacheStore_directory (fileCollector cachePath None)
              (cacheFileSpec None) newContent emptyWorld noPermission
              eq_refl eq_refl) as (_ & Hfail & _).
  apply (Hfail (fs emptyWorld)).
  - vm_compute. reflexivity.
  - vm_compute. reflexivity.
Defined.

Lemma cacheStore_azblob_outcomes_witness :
  let r := cacheStore (blobCollector "metrics" "snapshot.json" None) newContent
             emptyWorld no_faults in
  r.1 = Returned () ∧
  storage r.2 !! (index (spec (blobSpec "metrics" "snapshot.json" None))
                    "azblob:container",
                  index (spec (blobSpec "metrics" "snapshot.json" None)) "azblob:blob")
  = Some newContent.
Proof.
  intros r.
  destruct (store_more_facts.cacheStore_azblob_outcomes
              (blobCollector "metrics" "snapshot.json" None)
              (blobSpec "metrics" "snapshot.json" None)
              {| azblob.serviceURL := "https://account.blob.core.windows.net/" |}
              newContent emptyWorld no_faults eq_refl eq_refl eq_refl)
    as (_ & _ & Hup).
  simpl in Hup. destruct Hup as (Hret & Hblob & _). split; [exact Hret|exact Hblob].
Defined.

Lemma cacheStore_cacheRead_roundtrip_witness :
  cacheRead (fileCollector cachePath None)
    (cacheStore (fileCollector cachePath None) newContent
       (fileWorld cachePath oldContent) no_faults).2 no_faults
  = Returned (Some newContent, true).
Proof.
  exact (store_more_facts.cacheStore_cacheRead_roundtrip (fileCollector cachePath None)
           (cacheFileSpec None) newContent (fileWorld cachePath oldContent) no_faults _
           eq_refl (or_introl eq_refl) cacheStore_returns).
Defined.

Lemma cacheRead_file_no_faults_witness :
  cacheRead (fileCollector cachePath None) (fileWorld cachePath oldContent) no_faults
  = Returned (Some oldContent, true) ∧
  cacheRead (fileCollector cachePath None) emptyWorld no_faults
  = Returned (None, false).
Proof.
  split.
  - destruct (store_more_facts.cacheRead_file_no_faults (fileCollector cachePath None)
                (cacheFileSpec None) (fileWorld cachePath oldContent)
                eq_refl eq_refl) as [Hfile _].
    apply Hfile. vm_compute. reflexivity.
  - destruct (store_more_facts.cacheRead_file_no_faults (fileCollector cachePath None)
                (cacheFileSpec None) emptyWorld eq_refl eq_refl) as [_ Hnone].
    apply Hnone.
    + vm_compute. reflexivity.
    + vm_compute. discriminate.
Defined.

Lemma collectionSaveCache_marshal_failure_witness :
  let r := collectionSaveCache refuse savingCollector (130 * Second)
             (fileWorld cachePath oldContent) no_faults in
  r.1.1 = Returned () ∧
  fs r.2 = fs (fileWorld cachePath oldContent) ∧
  storage r.2 = storage (fileWorld cachePath oldContent) ∧
  log r.2 = (log (fileWorld cachePath oldContent)
               ++ [(ErrorLevel, msgSerialize (JsonError "unsupported type"))])%list.
Proof.
  exact (collector_more_facts.collectionSaveCache_marshal_failure refuse savingCollector
           (cacheFileSpec (Some "v2")) (600 * Second) (130 * Second)
           (fileWorld cachePath oldContent) no_faults (JsonError "unsupported type")
           eq_refl eq_refl eq_refl).
Defined.

Lemma collectionRestoreCache_cold_start_witness :
  let c := startedCollector ∅ None in
  ∃ w',
    collectionRestoreCache Unmarshal Init c (131 * Second) (131 * Second)
      (fileWorld cachePath oldContent) no_faults
    = (Returned false, c, w') ∧
    fs w' = fs (fileWorld cachePath oldContent) ∧
    storage w' = storage (fileWorld cachePath oldContent) ∧
    log w' = (log (fileWorld cachePath oldContent)
                ++ [(InfoLevel, msgRestoring (raw (cacheFileSpec None)));
                    (WarnLevel, msgDecode (JsonError "invalid character"))])%list.
Proof.
  intros c.
  destruct (collector_more_facts.collectionRestoreCache_cold_start Unmarshal Init c
              (cacheFileSpec None) (131 * Second) (131 * Second)
              (fileWorld cachePath oldContent) no_faults eq_refl) as [_ Hdecode].
  apply (Hdecode (Some oldContent)).
  - vm_compute. reflexivity.
  - vm_compute. reflexivity.
Defined.

Lemma collectionRestoreCache_accepted_witness :
  let c := startedCollector {["requests" := placeholder]} (Some "v2") in
  let r := collectionRestoreCache Unmarshal Init c (131 * Second) (131 * Second)
             savedWorld no_faults in
  r.1.1 = Returned true ∧
  Expiry (data r.1.2) = Some (730 * Second) ∧
  lastScrapeTime r.1.2 = Some (100 * Second).
Proof.
  intros c r.
  destruct (collector_more_facts.collectionRestoreCache_accepted Unmarshal Init c
              (cacheFileSpec (Some "v2")) (Some savedBytes) savedRecord (730 * Second)
              (131 * Second) (131 * Second) savedWorld no_faults eq_refl
              (examples.cacheRead_savedWorld _ _) examples.Unmarshal_savedBytes)
    as (Ho & Hexp & Hlast & _).
  - intros t [= <-]. reflexivity.
  - reflexivity.
  - reflexivity.
  - split; [exact Ho|]. split; [exact Hexp|exact Hlast].
Defined.

Lemma SetCache_azblob_panic_witness :
  let r := SetCache url.Parse newCollector (Some "azblob://account.blob.core.windows.net")
             None goodEnvironment emptyWorld in
  ∃ cs,
    cache r.1.2 = Some cs ∧ client cs = None ∧
    ∀ w2 f, cacheRead r.1.2 w2 f = Panicked nilInterface.
Proof.
  intros r.
  destruct (store_more_facts.SetCache_azblob_panic url.Parse newCollector
              "azblob://account.blob.core.windows.net" None goodEnvironment emptyWorld
              (azblobPathMessage "azblob://account.blob.core.windows.net") r.1.2 r.2)
    as (cs & Hc & _ & Hcl & _ & _ & _ & Hread).
  - reflexivity.
  - vm_compute. reflexivity.
  - exists cs. split; [exact Hc|]. split; [exact Hcl|exact Hread].
Defined.

End more_examples.


(** ** The name of the temporary file *)

Module filepath_more_facts.
Import filepath filepath_facts.

(** X27. The temporary file of [cacheStore] is named after the
    destination: its base name is the base name of the destination between
    a leading dot and [.tmp] (just [.tmp] when the destination is the root
    directory), so it is a hidden file, and it is never the destination
    itself. *)
Theorem tmpFilePath_name filePath :
  Base (collector.tmpFilePath filePath)
  = (if String.eqb (Base filePath) "/" then ".tmp"
     else "." +:+ Base filePath +:+ ".tmp") ∧
  collector.tmpFilePath filePath ≠ filePath.
Proof.
  split; [|apply tmpFilePath_ne].
  unfold collector.tmpFilePath, Join.
  rewrite (eqb_empty_false _ (Dir_not_empty filePath)).
  change (join [Dir filePath; "." +:+ Base filePath +:+ ".tmp"])
    with (Dir filePath +:+ String Separator ("." +:+ Base filePath +:+ ".tmp")).
  destruct (Base_cases filePath) as [Hroot|[Hs Hne]].
  - rewrite Hroot. simpl String.eqb. cbv iota.
    change (Dir filePath +:+ String Separator ("." +:+ String Separator "" +:+ ".tmp"))
      with (Dir filePath +:+ (String Separator "." +:+ String Separator ".tmp")).
    rewrite <- append_assoc. apply Base_Clean_snoc; [done|done|].
    intros H. apply (f_equal String.length) in H.
    rewrite length_append in H. simpl in H. lia.
  - assert (Hnot : String.eqb (Base filePath) "/" = false).
    { apply String.eqb_neq. intros Heq. by rewrite Heq in Hs. }
    rewrite Hnot. apply Base_Clean_snoc.
    + apply proper_long. rewrite !length_append. simpl. lia.
    + apply (sepfree_append "."); [done|]. by apply sepfree_append.
    + apply Dir_not_empty.
Qed.

End filepath_more_facts.
